(** * Branch and commit name validator: relevance scoring and the simple validator

    A shallow embedding of

    - [validateContentRelevance] of [index_jira_backup.js], the keyword
      relevance scorer, together with the string and number operations of
      the JavaScript runtime it calls;
    - the simple validator ([validateFormat], [validateBranchName],
      [validateCommitMessage], [validateBoth]);
    - the first validator of [index.js];
    - the ticket check [validateJiraTicket] of [index_jira_backup.js] up
      to its request, the handlers of the response, and [getCacheStats].

    JavaScript strings are sequences of UTF-16 code units.  They are
    represented by [string], each [ascii] standing for the code unit of the
    same number, so the strings covered are those of the range U+0000 to
    U+00FF.  Numbers are IEEE 754 binary64 values, represented by
    [spec_float] with the operations of [SpecFloat] at precision 53. *)

From Stdlib Require Import Bool Arith ZArith List String Ascii Lia Permutation.
From Stdlib Require Import SpecFloat.
Import ListNotations.

Local Open Scope list_scope.
Local Open Scope string_scope.

(** ** Strings of the runtime *)

Module JSString.

(** Code unit tests used by the character classes of the source. *)

Definition in_range (lo hi : nat) (c : ascii) : bool :=
  let n := nat_of_ascii c in (lo <=? n)%nat && (n <=? hi)%nat.

Definition is_upper (c : ascii) : bool := in_range 65 90 c.   (* [A-Z] *)
Definition is_lower (c : ascii) : bool := in_range 97 122 c.  (* [a-z] *)
Definition is_digit (c : ascii) : bool := in_range 48 57 c.   (* \d *)

(** [String.prototype.toLowerCase] on one code unit: the letters A to Z
    and the capital letters of U+00C0 to U+00DE (the multiplication sign
    U+00D7 apart) move up by 32; no other unit below U+0100 changes. *)
Definition toLowerCase_unit (c : ascii) : ascii :=
  let n := nat_of_ascii c in
  if is_upper c || (in_range 192 222 c && negb (n =? 215)%nat)
  then ascii_of_nat (n + 32)
  else c.

Fixpoint toLowerCase (s : string) : string :=
  match s with
  | EmptyString => EmptyString
  | String c s' => String (toLowerCase_unit c) (toLowerCase s')
  end.

(** [s.startsWith(p)]. *)
Fixpoint startsWith (s p : string) {struct p} : bool :=
  match p, s with
  | EmptyString, _ => true
  | String _ _, EmptyString => false
  | String a p', String b s' => Ascii.eqb a b && startsWith s' p'
  end.

(** [s.includes(k)]: some position of [s] starts an occurrence of [k]. *)
Fixpoint includes (s k : string) : bool :=
  startsWith s k ||
  match s with
  | EmptyString => false
  | String _ s' => includes s' k
  end.

(** [s.substring(a, b)]: the units from [min a b] up to [max a b],
    both clamped to the length of [s]. *)
Definition substring (a b : nat) (s : string) : string :=
  String.substring (Nat.min a b) (Nat.max a b - Nat.min a b) s.

(** The units of [s] from position [n] on ([s.slice(n)]). *)
Fixpoint drop (n : nat) (s : string) : string :=
  match n, s with
  | O, _ => s
  | S _, EmptyString => EmptyString
  | S n', String _ s' => drop n' s'
  end.

(** The longest prefix whose units satisfy [p], and what follows it: how
    a greedy [[...]*] consumes its input when nothing after it can fail. *)
Fixpoint span (p : ascii -> bool) (s : string) : string * string :=
  match s with
  | EmptyString => (EmptyString, EmptyString)
  | String c s' =>
      if p c then let (a, b) := span p s' in (String c a, b)
      else (EmptyString, s)
  end.

Definition skip (p : ascii -> bool) (s : string) : string := snd (span p s).

Definition mem (c : ascii) (set : string) : bool :=
  existsb (Ascii.eqb c) (list_ascii_of_string set).

Definition all_units (p : ascii -> bool) (s : string) : bool :=
  forallb p (list_ascii_of_string s).

Definition is_empty (s : string) : bool :=
  match s with EmptyString => true | _ => false end.

End JSString.

(** ** Numbers of the runtime *)

Module JSNumber.

Definition Number := spec_float.

Definition prec : Z := 53.
Definition emax : Z := 1024.

(** The Number nearest to an integer (exact below 2^53). *)
Definition of_Z (z : Z) : Number := binary_normalize prec emax z 0 false.
Definition of_nat (n : nat) : Number := of_Z (Z.of_nat n).

Definition div (x y : Number) : Number := SFdiv prec emax x y.
Definition mul (x y : Number) : Number := SFmul prec emax x y.

(** [x >= y]. *)
Definition geb (x y : Number) : bool := SFleb y x.

(** [Math.round]: the integer nearest to [x], a tie going towards
    +infinity; NaN, the infinities and the zeros are returned as they
    are, and a value that rounds to zero from below gives -0. *)
Definition Math_round (x : Number) : Number :=
  match x with
  | S754_finite s m e =>
      match e with
      | Zneg k =>
          let d := Z.pow 2 (Zpos k) in
          let num := if s then Z.opp (Zpos m) else Zpos m in
          binary_normalize prec emax ((2 * num + d) / (2 * d)) 0 s
      | _ => x
      end
  | _ => x
  end.

End JSNumber.

(** ** The relevance scorer ([index_jira_backup.js]) *)

Module Relevance.
Import JSString JSNumber.

(** What a call does: it returns a value or throws. *)
Inductive error := SyntaxError.

Inductive completion (A : Type) :=
| Returned (a : A)
| Thrown (e : error).
Arguments Returned {A} a.
Arguments Thrown {A} e.

(** The [message] field is a template filled with the unrounded
    percentage, the two counts and the summary; it is kept as the
    template's name and its arguments. *)
Inductive message :=
| CannotValidate
| ContentRelevance (percentage : Number) (matched total : nat)
| LowContentRelevance (percentage : Number) (ticketSummary : string).

(** The object returned by [validateContentRelevance].  The early return
    for a missing summary sets three fields only; the others are absent
    ([None]) on that object. *)
Record verdict := {
  relevant : bool;
  matchPercentage : option Number;
  matchedKeywords : option (list string);
  missingKeywords : list string;
  allKeywords : option (list string);
  message_ : message
}.

(** *** The two [replace] calls that clean the name *)

(** SyntaxCharacter of the pattern grammar: a source without any of them
    is a sequence of PatternCharacter and matches itself. *)
Definition SyntaxCharacter (c : ascii) : bool := mem c "^$\.*+?()[]{}|".

Definition literal_source (src : string) : bool :=
  all_units (fun c => negb (SyntaxCharacter c)) src.

(** A source that begins with a quantifier has nothing to repeat: no
    Term of the grammar starts with one, and [new RegExp] throws. *)
Definition starts_with_quantifier (src : string) : bool :=
  match src with
  | String c _ => mem c "*+?"
  | EmptyString => false
  end.

Definition dash_or_underscore (c : ascii) : bool := mem c "-_".
Definition dash_underscore_slash (c : ascii) : bool := mem c "-_/".

(** A match of [lit[-_]*] at the start of [s]: the literal, then the
    longest run of dashes and underscores.  The result is what follows
    the match. *)
Definition matchTicketAt (lit s : string) : option string :=
  if startsWith s lit
  then Some (skip dash_or_underscore (drop (String.length lit) s))
  else None.

(** [s.replace(/lit[-_]*/g, '')].  The engine looks for a match at the
    current position; a non-empty match is dropped and the search goes on
    after it; after an empty match, or none, the unit at the current
    position is kept and the search moves one unit on.  One unit at least
    is consumed per round, so [S (length s)] rounds reach the end. *)
Fixpoint replaceTicket (rounds : nat) (lit s : string) : string :=
  match rounds with
  | O => s
  | S rounds' =>
      let keep :=
        match s with
        | EmptyString => EmptyString
        | String c s' => String c (replaceTicket rounds' lit s')
        end in
      match matchTicketAt lit s with
      | Some rest =>
          if (String.length rest <? String.length s)%nat
          then replaceTicket rounds' lit rest
          else keep
      | None => keep
      end
  end.

Definition categoryPrefixes : list string :=
  ["feature"; "bugfix"; "hotfix"; "release"; "chore"].

(** [s.replace(/^(feature|bugfix|hotfix|release|chore)[-_\/]*/g, '')]:
    the pattern is anchored, so it matches once, at the start, or not at
    all. *)
Definition removeCategoryPrefix (s : string) : string :=
  match find (startsWith s) categoryPrefixes with
  | Some p => skip dash_underscore_slash (drop (String.length p) s)
  | None => s
  end.

Section Scorer.

(** [extractKeywords] is called by the scorer and is not defined in
    the file; the scorer is read for any such function. *)
Variable extractKeywords : string -> list string.

(** The RegExp engine of the host, for the pattern sources that hold
    operators: from the source and the subject to the subject with
    every match removed, or [None] when [new RegExp] rejects the
    source. *)
Variable engine : string -> string -> option string.

(** [nameLower.replace(new RegExp(ticketId.toLowerCase() + '[-_]*', 'g'), '')],
    [None] when the constructor throws. *)
Definition removeTicketId (ticketIdLower nameLower : string) : option string :=
  if literal_source ticketIdLower
  then Some (replaceTicket (S (String.length nameLower)) ticketIdLower nameLower)
  else if starts_with_quantifier ticketIdLower then None
  else engine (ticketIdLower ++ "[-_]*") nameLower.

Definition cleanName (name ticketId : string) : option string :=
  match removeTicketId (toLowerCase ticketId) (toLowerCase name) with
  | Some stripped => Some (removeCategoryPrefix stripped)
  | None => None
  end.

(** The test of the [filter] that selects the matched keywords. *)
Definition keywordMatches (clean keyword : string) : bool :=
  includes clean keyword ||
  ((4 <=? String.length keyword)%nat &&
   includes clean (substring 0 4 keyword)).

Definition percentage (matched total : nat) : Number :=
  if (0 <? total)%nat
  then mul (div (of_nat matched) (of_nat total)) (of_Z 100)
  else of_Z 100.

(** [ticketSummary] is [None] for [null] or [undefined]; [!ticketSummary]
    holds for these and for the empty string. *)
Definition validateContentRelevance
    (name : string) (ticketSummary : option string) (ticketId : string)
    : completion verdict :=
  match ticketSummary with
  | None | Some EmptyString =>
      Returned {| relevant := true;
                  matchPercentage := None;
                  matchedKeywords := None;
                  missingKeywords := [];
                  allKeywords := None;
                  message_ := CannotValidate |}
  | Some summary =>
      let keywords := extractKeywords summary in
      match cleanName name ticketId with
      | None => Thrown SyntaxError
      | Some clean =>
          let matched := filter (keywordMatches clean) keywords in
          let pct := percentage (List.length matched) (List.length keywords) in
          let isRelevant := geb pct (of_Z 30) in
          Returned {| relevant := isRelevant;
                      matchPercentage := Some (Math_round pct);
                      matchedKeywords := Some matched;
                      missingKeywords :=
                        filter (fun k => negb (existsb (String.eqb k) matched)) keywords;
                      allKeywords := Some keywords;
                      message_ :=
                        if isRelevant
                        then ContentRelevance pct (List.length matched) (List.length keywords)
                        else LowContentRelevance pct summary |}
      end
  end.

End Scorer.

End Relevance.

(** ** Keyword extraction *)

Module Keywords.
Import JSString.

(** The configured constants of the extraction. *)
Record config := {
  minKeywordLength : nat;
  maxKeywords : nat;
  stoplist : list string
}.

Definition alphanumeric (c : ascii) : bool :=
  is_upper c || is_lower c || is_digit c.

(** The maximal runs of alphanumeric units of [s]; [cur] is the run
    being read, in reverse. *)
Fixpoint tokens_from (cur : list ascii) (s : string) : list string :=
  let flush := match cur with
               | [] => []
               | _ => [string_of_list_ascii (rev cur)]
               end in
  match s with
  | EmptyString => flush
  | String c s' =>
      if alphanumeric c then tokens_from (c :: cur) s'
      else (flush ++ tokens_from [] s')%list
  end.

Definition tokens (s : string) : list string := tokens_from [] s.

Definition member (w : string) (l : list string) : bool :=
  existsb (String.eqb w) l.

(** The first occurrence of every word, in the order of the list. *)
Fixpoint dedupe (seen l : list string) : list string :=
  match l with
  | [] => []
  | w :: l' =>
      if member w seen then dedupe seen l'
      else w :: dedupe (w :: seen) l'
  end.

(** The words that pass the two filters, before deduplication. *)
Definition candidates (cfg : config) (text : string) : list string :=
  filter (fun w => negb (member w (stoplist cfg)))
    (filter (fun w => (minKeywordLength cfg <=? String.length w)%nat)
       (map toLowerCase (tokens text))).

(** Modelled from the spec: [extractKeywords] is called and exported by
    [index_jira_backup.js] but defined in no file of the repository.  The
    specification gives its steps: split on non-alphanumeric boundaries,
    lower-case each token, discard the tokens shorter than the minimum
    length, discard the tokens of the stoplist, deduplicate preserving
    first-seen order, truncate to the maximum keyword count. *)
Definition extractKeywords (cfg : config) (text : string) : list string :=
  firstn (maxKeywords cfg) (dedupe [] (candidates cfg text)).

(** Modelled from the spec: the default constants.  The minimum length
    is 3 and the cap 8; the stoplist holds the common words the
    specification and the guide name, and [poc], which the five keywords
    required of the sentence of the guide leave out. *)
Definition defaultConfig : config :=
  {| minKeywordLength := 3;
     maxKeywords := 8;
     stoplist := ["the"; "a"; "to"; "is"; "new"; "poc"] |}.

End Keywords.

(** ** The simple validator

    The validators also write a line to the console when they start; the
    line takes no part in the object they return and is left out. *)

Module SimpleValidator.
Import JSString.

(** [CONFIG], read from the environment when the module is loaded. *)
Record config := {
  projectKeys : list string;
  skipValidation : bool
}.

(** [PROJECT_KEYS] unset and [SKIP_VALIDATION] not [true]. *)
Definition defaultCONFIG : config :=
  {| projectKeys := ["SHOP"; "PROJ"; "TASK"]; skipValidation := false |}.

(** *** [PATTERNS]

    A successful [name.match(pattern)] is the list of the whole match
    and the capture groups. *)

Definition categoryPrefixes : list string :=
  ["feature"; "bugfix"; "hotfix"; "release"; "chore"].

(** A dot matches any unit but a line terminator (U+2028 and U+2029 are
    above the range of the strings covered). *)
Definition line_terminator (c : ascii) : bool :=
  let n := nat_of_ascii c in (n =? 10)%nat || (n =? 13)%nat.

(** [\s] below U+0100: tab, line feed, vertical tab, form feed, carriage
    return, space and the no-break space. *)
Definition white_space (c : ascii) : bool :=
  let n := nat_of_ascii c in
  in_range 9 13 c || (n =? 32)%nat || (n =? 160)%nat.

(** [([A-Z]+)-(\d+)] at the start of [s]: the key, the number and what
    follows the match.  Both runs are greedy, and giving back a letter or
    a digit never helps, a dash being neither. *)
Definition ticketAt (s : string) : option (string * string * string) :=
  let (key, r1) := span is_upper s in
  match key, r1 with
  | String _ _, String "-"%char r2 =>
      let (num, r3) := span is_digit r2 in
      match num with
      | String _ _ => Some (key, num, r3)
      | EmptyString => None
      end
  | _, _ => None
  end.

(** [/([A-Z]+)-(\d+)/]: the leftmost match. *)
Fixpoint match_ticketId (s : string) : option (list string) :=
  match ticketAt s with
  | Some (key, num, _) => Some [key ++ "-" ++ num; key; num]
  | None =>
      match s with
      | EmptyString => None
      | String _ s' => match_ticketId s'
      end
  end.

(** [/^([A-Z]+)-(\d+)-(.+)$/]. *)
Definition match_commit (s : string) : option (list string) :=
  match ticketAt s with
  | Some (key, num, String "-"%char desc) =>
      if negb (is_empty desc) && all_units (fun c => negb (line_terminator c)) desc
      then Some [s; key; num; desc]
      else None
  | _ => None
  end.

(** [/^(feature|bugfix|hotfix|release|chore)\/([A-Z]+)-(\d+)-(.+)$/]. *)
Definition match_branch (s : string) : option (list string) :=
  match find (fun p => startsWith s (p ++ "/")) categoryPrefixes with
  | Some p =>
      match match_commit (drop (S (String.length p)) s) with
      | Some [_; key; num; desc] => Some [s; p; key; num; desc]
      | _ => None
      end
  | None => None
  end.

Inductive pattern := branch | commit | ticketId.

(** [PATTERNS[type]], for a [type] that is not the name of a property of
    [Object.prototype]; [validateFormat], the one function that reads it,
    is not exported and is called with [branch] and [commit] only. *)
Definition PATTERNS (type : string) : option pattern :=
  if String.eqb type "branch" then Some branch
  else if String.eqb type "commit" then Some commit
  else if String.eqb type "ticketId" then Some ticketId
  else None.

(** [name.match(pattern)]. *)
Definition match_ (name : string) (p : pattern) : option (list string) :=
  match p with
  | branch => match_branch name
  | commit => match_commit name
  | ticketId => match_ticketId name
  end.

(** The messages are templates, some holding symbols above U+00FF; a
    message is kept as the template's name and its arguments. *)
Inductive message :=
| UnknownValidationType
| InvalidFormat (type expected : string)
| NoTicketIdFound (type : string)
| InvalidProjectKey (key : string) (validKeys : list string)
| FormatIsValid (type : string)
| ValidationSkipped (p : pattern)
| NoSpaces (p : pattern)
| NoUnderscores (p : pattern)
| MustBeLowercase (p : pattern)
| NameIsValid (p : pattern)
| TicketIdMismatch (branchTicket commitTicket : string)
| BothValid
| ValidationFailed.

(** The object returned by the validators; an absent field is [None],
    and [skipped] is [true] only on the objects that set it. *)
Record result := {
  valid : bool;
  message_ : message;
  ticketId_ : option string;
  projectKey : option string;
  skipped : bool;
  suggestion : option string
}.

Definition fail (m : message) (s : option string) : result :=
  {| valid := false; message_ := m; ticketId_ := None; projectKey := None;
     skipped := false; suggestion := s |}.

(** [extractTicketId]. *)
Definition extractTicketId (name : string) : option string :=
  match match_ticketId name with
  | Some (m0 :: _) => Some m0
  | _ => None
  end.

(** [ticketId.split('-')[0]]. *)
Definition split_dash_0 (s : string) : string :=
  fst (span (fun c => negb (Ascii.eqb c "-")) s).

(** [description.replace(/\s+/g, '-')]: [in_run] tells that the unit
    before was white space, already replaced. *)
Fixpoint replace_spaces (in_run : bool) (s : string) : string :=
  match s with
  | EmptyString => EmptyString
  | String c s' =>
      if white_space c
      then if in_run then replace_spaces true s'
           else String "-" (replace_spaces true s')
      else String c (replace_spaces false s')
  end.

(** [description.replace(/_/g, '-')]. *)
Fixpoint replace_underscores (s : string) : string :=
  match s with
  | EmptyString => EmptyString
  | String c s' =>
      String (if Ascii.eqb c "_" then "-"%char else c) (replace_underscores s')
  end.

Section Validator.
Variable CONFIG : config.

(** [CONFIG.projectKeys[0]] inside a template. *)
Definition firstKey : string := hd "undefined" (projectKeys CONFIG).

Definition getExpectedFormat (type : string) : string :=
  if String.eqb type "branch"
  then firstKey ++ "-1234-description (feature/bugfix/hotfix/release/chore prefix required)"
  else if String.eqb type "commit"
  then firstKey ++ "-1234-description"
  else "Valid format required".

Definition validateFormat (name type : string) : result :=
  match PATTERNS type with
  | None => fail UnknownValidationType None
  | Some pat =>
      match match_ name pat with
      | None => fail (InvalidFormat type (getExpectedFormat type)) None
      | Some _ =>
          match extractTicketId name with
          | None => fail (NoTicketIdFound type) None
          | Some ticket =>
              let key := split_dash_0 ticket in
              if existsb (String.eqb key) (projectKeys CONFIG)
              then {| valid := true; message_ := FormatIsValid type;
                      ticketId_ := Some ticket; projectKey := Some key;
                      skipped := false; suggestion := None |}
              else fail (InvalidProjectKey key (projectKeys CONFIG)) None
          end
      end
  end.

Definition skippedResult (p : pattern) : result :=
  {| valid := true; message_ := ValidationSkipped p; ticketId_ := None;
     projectKey := None; skipped := true; suggestion := None |}.

Definition validResult (p : pattern) (formatResult : result) : result :=
  {| valid := true; message_ := NameIsValid p;
     ticketId_ := ticketId_ formatResult;
     projectKey := projectKey formatResult;
     skipped := false; suggestion := None |}.

(** The three tests on the description, shared in shape by the two
    validators; [head] is the text of the suggestion before the
    description. *)
Definition checkDescription (p : pattern) (head description : string)
    (formatResult : result) : result :=
  if includes description " "
  then fail (NoSpaces p) (Some (head ++ replace_spaces false description))
  else if includes description "_"
  then fail (NoUnderscores p) (Some (head ++ replace_underscores description))
  else if negb (String.eqb description (toLowerCase description))
  then fail (MustBeLowercase p) (Some (head ++ toLowerCase description))
  else validResult p formatResult.

Definition validateBranchName (branchName : string) : result :=
  if skipValidation CONFIG then skippedResult branch
  else
    let formatResult := validateFormat branchName "branch" in
    if negb (valid formatResult) then formatResult
    else
      match match_ branchName branch with
      | Some [_; p1; p2; p3; String c d] =>
          checkDescription branch (p1 ++ "/" ++ p2 ++ "-" ++ p3 ++ "-")
            (String c d) formatResult
      | _ => validResult branch formatResult
      end.

Definition validateCommitMessage (commitMessage : string) : result :=
  if skipValidation CONFIG then skippedResult commit
  else
    let formatResult := validateFormat commitMessage "commit" in
    if negb (valid formatResult) then formatResult
    else
      match match_ commitMessage commit with
      | Some [_; p1; p2; String c d] =>
          checkDescription commit (p1 ++ "-" ++ p2 ++ "-")
            (String c d) formatResult
      | _ => validResult commit formatResult
      end.

(** The object returned by [validateBoth]. *)
Record both := {
  bothValid : bool;
  bothMessage : message;
  branchResult : result;
  commitResult : result
}.

(** A ticket ID in a condition: present and not the empty string. *)
Definition truthy (t : option string) : bool :=
  match t with
  | Some (String _ _) => true
  | _ => false
  end.

Definition differ (a b : option string) : bool :=
  match a, b with
  | Some x, Some y => negb (String.eqb x y)
  | None, None => false
  | _, _ => true
  end.

Definition mismatchMessage (a b : option string) : message :=
  TicketIdMismatch (match a with Some x => x | None => "undefined" end)
                   (match b with Some y => y | None => "undefined" end).

Definition validateBoth (branchName commitMessage : string) : both :=
  let branchResult := validateBranchName branchName in
  let commitResult := validateCommitMessage commitMessage in
  if valid branchResult && valid commitResult &&
     truthy (ticketId_ branchResult) && truthy (ticketId_ commitResult) &&
     differ (ticketId_ branchResult) (ticketId_ commitResult)
  then {| bothValid := false;
          bothMessage := mismatchMessage (ticketId_ branchResult) (ticketId_ commitResult);
          branchResult := branchResult;
          commitResult := commitResult |}
  else {| bothValid := valid branchResult && valid commitResult;
          bothMessage := if valid branchResult && valid commitResult
                         then BothValid else ValidationFailed;
          branchResult := branchResult;
          commitResult := commitResult |}.

End Validator.

End SimpleValidator.

(** ** The first validator ([index.js])

    It knows one project, SHOP, and three prefixes. *)

Module ShopValidator.
Import JSString.

Definition validPrefixes : list string := ["feature/"; "bugfix/"; "hotfix/"].

(** [[a-z0-9-]]. *)
Definition slug_unit (c : ascii) : bool :=
  is_lower c || is_digit c || Ascii.eqb c "-".

(** [/^SHOP-\d+-[a-z0-9-]+$/.test(s)]: the digits are taken greedily, and
    giving one back never helps, the next unit having to be a dash. *)
Definition test_commit (s : string) : bool :=
  if startsWith s "SHOP-" then
    let (num, r) := span is_digit (drop 5 s) in
    match num, r with
    | String _ _, String "-"%char desc =>
        negb (is_empty desc) && all_units slug_unit desc
    | _, _ => false
    end
  else false.

(** [/^[a-z]+\/SHOP-\d+-[a-z0-9-]+$/.test(s)]. *)
Definition test_branch (s : string) : bool :=
  let (word, r) := span is_lower s in
  match word, r with
  | String _ _, String "/"%char rest => test_commit rest
  | _, _ => false
  end.

Inductive message :=
| MustStartWith (prefixes : list string)
| InvalidBranchName
| BranchNameIsValid
| InvalidCommitMessage
| CommitMessageIsValid.

Record result := {
  valid : bool;
  message_ : message
}.

Definition validateBranchName (branchName : string) : result :=
  let isValidPrefix := existsb (startsWith branchName) validPrefixes in
  if negb isValidPrefix
  then {| valid := false; message_ := MustStartWith validPrefixes |}
  else if negb (test_branch branchName)
  then {| valid := false; message_ := InvalidBranchName |}
  else {| valid := true; message_ := BranchNameIsValid |}.

Definition validateCommitMessage (commitMessage : string) : result :=
  if negb (test_commit commitMessage)
  then {| valid := false; message_ := InvalidCommitMessage |}
  else {| valid := true; message_ := CommitMessageIsValid |}.

End ShopValidator.

(** ** The Jira ticket check and its cache ([index_jira_backup.js])

    [JIRA_CONFIG], [ticketCache] and [saveCache] are used by the file and
    declared nowhere in it.  The configuration is read as a record of the
    fields the file uses; the cache as the table of the results the file
    stores in it, in the order [Object.entries] lists them; [saveCache],
    which is called after every store, as writing the table out and
    leaving it as it is.  Times are the integers of [Date.now()]. *)

Module JiraValidator.
Import JSString.

Record config := {
  apiUrl : option string;
  username : option string;
  apiToken : option string;
  projectKeys : list string;
  skipValidation : bool;
  cacheTTL : Z;
  timeout : Z
}.

(** What a handler caught: the error of [JSON.parse] or of a property
    read, by its message, or the error thrown by the scorer. *)
Inductive caught :=
| ResponseError (reason : string)
| ScorerError (e : Relevance.error).

(** The [message] templates, by name and arguments. *)
Inductive message :=
| ValidationSkipped
| InvalidProjectKey (projectKey : string) (validKeys : list string)
| TicketExists (ticketId : string) (summary : option string)
| ContentMismatch (summary : option string)
| TicketNotFound (ticketId : string)
| AuthenticationFailed
| ApiError (statusCode : Z) (errorMessages : string)
| ParseFailed (parseError : caught)
| ConnectionFailed (reason : string)
| TimedOut (timeout : Z).

(** A result object.  [skipped] and [relevance] are read for their truth
    value only; an absent field is [false], [None]. *)
Record result := {
  valid : bool;
  message_ : message;
  summary : option string;
  status : option string;
  assignee : option string;
  timestamp : Z;
  skipped : bool;
  relevance : option Relevance.verdict
}.

(** [ticketCache]: own properties in the order of [Object.entries]; the
    keys are ticket IDs, none of them an array index or [__proto__], so
    a store makes an own property and the order is that of the first
    store of each key.  A name inherited from [Object.prototype] reads
    as a value without [timestamp], which the test of freshness refuses
    as it refuses an absent key. *)
Definition cache := list (string * result).

(** [ticketCache[key]]. *)
Fixpoint get (c : cache) (key : string) : option result :=
  match c with
  | [] => None
  | (k, r) :: c' => if String.eqb k key then Some r else get c' key
  end.

(** [ticketCache[key] = r]: an own property keeps its place, a new one
    comes last. *)
Fixpoint set (c : cache) (key : string) (r : result) : cache :=
  match c with
  | [] => [(key, r)]
  | (k, r') :: c' =>
      if String.eqb k key then (k, r) :: c' else (k, r') :: set c' key r
  end.

(** How the synchronous part of the promise executor ends: the promise
    is resolved; or it is rejected because the executor threw, in the
    scorer or in [new URL], whose argument [InvalidURL] keeps; or the
    executor reaches the call of [https.request]. *)
Inductive outcome :=
| Resolved (r : result) (c : cache)
| Rejected (e : Relevance.error) (c : cache)
| InvalidURL (input : string) (c : cache)
| Requesting (c : cache).

(** [s.endsWith(p)]: one of the ends of [s] is [p]. *)
Fixpoint endsWith (s p : string) : bool :=
  String.eqb s p ||
  match s with
  | EmptyString => false
  | String _ s' => endsWith s' p
  end.

Definition plain (v : bool) (m : message) (t : Z) : result :=
  {| valid := v; message_ := m; summary := None; status := None;
     assignee := None; timestamp := t; skipped := false; relevance := None |}.

Definition with_relevance (r : result) (v : Relevance.verdict) : result :=
  {| valid := valid r; message_ := message_ r; summary := summary r;
     status := status r; assignee := assignee r; timestamp := timestamp r;
     skipped := skipped r; relevance := Some v |}.

(** The fields of the issue that the handler reads. *)
Record issue := {
  issue_summary : option string;
  issue_status : string;
  issue_assignee : option string
}.

(** [v || d] for a string, [null] or [undefined] [v]. *)
Definition or_else (v : option string) (d : string) : string :=
  match v with
  | Some (String c s) => String c s
  | _ => d
  end.

(** A read that may throw. *)
Inductive read (A : Type) :=
| Threw (reason : string)
| Read (a : A).
Arguments Threw {A} reason.
Arguments Read {A} a.

(** The response, as the handler reads it: the status code, what
    [JSON.parse(data)] and the reads of [fields] give, and what
    [JSON.parse(data || '{}')] and [errorMessages?.join(', ')] give. *)
Record response := {
  statusCode : Z;
  issueData : read issue;
  errorData : read (option string)
}.

Section Validator.

Variable extractKeywords : string -> list string.
Variable engine : string -> string -> option string.

(** The URL parser of the host: whether [new URL(input)] accepts its
    argument; it throws a [TypeError] when it does not. *)
Variable validURL : string -> bool.

Variable JIRA_CONFIG : config.

Definition fresh (now : Z) (cached : result) : bool :=
  (now - timestamp cached <? cacheTTL JIRA_CONFIG * 60 * 1000)%Z.

Definition not_configured : bool :=
  skipValidation JIRA_CONFIG
  || negb (SimpleValidator.truthy (apiUrl JIRA_CONFIG))
  || negb (SimpleValidator.truthy (username JIRA_CONFIG))
  || negb (SimpleValidator.truthy (apiToken JIRA_CONFIG)).

(** The argument of [new URL]: [baseUrl], which is [apiUrl] with a slash
    at its end, then the path of the issue. *)
Definition issueURL (apiUrl_ ticketId : string) : string :=
  let baseUrl := if endsWith apiUrl_ "/" then apiUrl_ else apiUrl_ ++ "/" in
  baseUrl ++ "rest/api/2/issue/" ++ ticketId.

(** Lines 164 to 303, reached without a fresh entry: [later] is the value
    of the call of [Date.now()] there.  Past the test of line 164
    [apiUrl] is a string that is not empty. *)
Definition validateUncached (c : cache) (ticketId : string) (later : Z) : outcome :=
  if not_configured then
    let result :=
      {| valid := true; message_ := ValidationSkipped; summary := None;
         status := None; assignee := None; timestamp := later;
         skipped := true; relevance := None |} in
    Resolved result (set c ticketId result)
  else
    let projectKey := SimpleValidator.split_dash_0 ticketId in
    if negb (existsb (String.eqb projectKey) (projectKeys JIRA_CONFIG)) then
      let result :=
        plain false (InvalidProjectKey projectKey (projectKeys JIRA_CONFIG)) later in
      Resolved result (set c ticketId result)
    else
      let input := issueURL (or_else (apiUrl JIRA_CONFIG) "") ticketId in
      if validURL input then Requesting c else InvalidURL input c.

(** The executor of [validateJiraTicket], up to the call of
    [https.request]: [now] is the value of [Date.now()] of the look into
    the cache. *)
Definition validateJiraTicket
    (c : cache) (ticketId branchOrCommitName : string) (now later : Z) : outcome :=
  match get c ticketId with
  | Some cached =>
      if fresh now cached then
        if negb (is_empty branchOrCommitName) && valid cached
           && SimpleValidator.truthy (summary cached)
        then
          match Relevance.validateContentRelevance extractKeywords engine
                  branchOrCommitName (summary cached) ticketId with
          | Relevance.Returned relevanceCheck =>
              let cached' := with_relevance cached relevanceCheck in
              Resolved cached' (set c ticketId cached')
          | Relevance.Thrown e => Rejected e c
          end
        else Resolved cached c
      else validateUncached c ticketId later
  | None => validateUncached c ticketId later
  end.

(** The result built by the handler of [end]: [now] is the value of
    [Date.now()] in the [try] block, [later] in the [catch] block. *)
Definition endResult
    (ticketId branchOrCommitName : string) (res : response) (now later : Z) : result :=
  if (statusCode res =? 200)%Z then
    match issueData res with
    | Threw reason => plain false (ParseFailed (ResponseError reason)) later
    | Read issueData =>
        let summary_ := issue_summary issueData in
        let result :=
          {| valid := true;
             message_ := TicketExists ticketId summary_;
             summary := summary_;
             status := Some (issue_status issueData);
             assignee := Some (or_else (issue_assignee issueData) "Unassigned");
             timestamp := now;
             skipped := false;
             relevance := None |} in
        if negb (is_empty branchOrCommitName) then
          match Relevance.validateContentRelevance extractKeywords engine
                  branchOrCommitName summary_ ticketId with
          | Relevance.Returned relevanceCheck =>
              if negb (Relevance.relevant relevanceCheck) then
                {| valid := false;
                   message_ := ContentMismatch summary_;
                   summary := summary result;
                   status := status result;
                   assignee := assignee result;
                   timestamp := now;
                   skipped := false;
                   relevance := Some relevanceCheck |}
              else with_relevance result relevanceCheck
          | Relevance.Thrown e => plain false (ParseFailed (ScorerError e)) later
          end
        else result
    end
  else if (statusCode res =? 404)%Z then plain false (TicketNotFound ticketId) now
  else if (statusCode res =? 401)%Z then plain false AuthenticationFailed now
  else
    match errorData res with
    | Threw reason => plain false (ParseFailed (ResponseError reason)) later
    | Read errorMessages =>
        plain false
          (ApiError (statusCode res) (or_else errorMessages "Unknown error")) now
    end.

(** The handler of [end]: the result is stored and the promise resolved
    with it. *)
Definition onEnd
    (c : cache) (ticketId branchOrCommitName : string) (res : response)
    (now later : Z) : result * cache :=
  let result := endResult ticketId branchOrCommitName res now later in
  (result, set c ticketId result).

(** The handlers of [error] and of [timeout]. *)
Definition onError (c : cache) (ticketId reason : string) (now : Z) : result * cache :=
  let result := plain false (ConnectionFailed reason) now in
  (result, set c ticketId result).

Definition onTimeout (c : cache) (ticketId : string) (now : Z) : result * cache :=
  let result := plain false (TimedOut (timeout JIRA_CONFIG)) now in
  (result, set c ticketId result).

End Validator.

(** *** [getCacheStats] *)

Record dated := { ticketId_ : string; date : Z }.

Record stats := {
  totalEntries : nat;
  validEntries : nat;
  invalidEntries : nat;
  skippedEntries : nat;
  oldestEntry : option dated;
  newestEntry : option dated
}.

(** The state of the loop: the statistics, [oldestTime] ([None] for
    [Infinity]) and [newestTime]. *)
Record scan := {
  stats_ : stats;
  oldestTime : option Z;
  newestTime : Z
}.

Definition older (t : Z) (oldestTime : option Z) : bool :=
  match oldestTime with
  | None => true
  | Some o => (t <? o)%Z
  end.

Definition visit (s : scan) (kv : string * result) : scan :=
  let (ticketId, entry) := kv in
  let st := stats_ s in
  let isOlder := older (timestamp entry) (oldestTime s) in
  let isNewer := (newestTime s <? timestamp entry)%Z in
  {| stats_ :=
       {| totalEntries := totalEntries st;
          validEntries := if valid entry then S (validEntries st) else validEntries st;
          invalidEntries := if valid entry then invalidEntries st else S (invalidEntries st);
          skippedEntries := if skipped entry then S (skippedEntries st) else skippedEntries st;
          oldestEntry :=
            if isOlder
            then Some {| ticketId_ := ticketId; date := timestamp entry |}
            else oldestEntry st;
          newestEntry :=
            if isNewer
            then Some {| ticketId_ := ticketId; date := timestamp entry |}
            else newestEntry st |};
     oldestTime := if isOlder then Some (timestamp entry) else oldestTime s;
     newestTime := if isNewer then timestamp entry else newestTime s |}.

Definition getCacheStats (ticketCache : cache) : stats :=
  stats_
    (fold_left visit ticketCache
       {| stats_ :=
            {| totalEntries := List.length ticketCache;
               validEntries := 0; invalidEntries := 0; skippedEntries := 0;
               oldestEntry := None; newestEntry := None |};
          oldestTime := None;
          newestTime := 0 |}).

End JiraValidator.

(** ** Notions used to state the properties *)

(** [l1] is [l2] with some elements left out, the order kept. *)
Inductive subsequence {A : Type} : list A -> list A -> Prop :=
| subsequence_nil : subsequence [] []
| subsequence_skip x l1 l2 : subsequence l1 l2 -> subsequence l1 (x :: l2)
| subsequence_keep x l1 l2 : subsequence l1 l2 -> subsequence (x :: l1) (x :: l2).

(** [k] occurs in [s] as a run of consecutive units. *)
Definition occurs_in (k s : string) : Prop :=
  exists before after, s = before ++ k ++ after.

(** The integer nearest to [a / b], a tie going up. *)
Definition nearest (a b : Z) : Z := ((2 * a + b) / (2 * b))%Z.

(** Structural equality of two Numbers. *)
Definition same_number (x y : JSNumber.Number) : bool :=
  match x, y with
  | S754_zero a, S754_zero b => Bool.eqb a b
  | S754_infinity a, S754_infinity b => Bool.eqb a b
  | S754_nan, S754_nan => true
  | S754_finite a m e, S754_finite b n f =>
      Bool.eqb a b && Pos.eqb m n && Z.eqb e f
  | _, _ => false
  end.

(** The largest keyword count up to which the percentage computed in
    binary64 rounds as the exact quotient does, whatever the matched
    count; with 40 keywords it no longer does. *)
Definition rounding_bound : nat := 39.

(** For [matched <= total <= rounding_bound]: the rounded percentage is the
    nearest integer to [100 * matched / total], and the comparison with 30
    agrees with the one on the exact quotient. *)
Definition percentage_row (total : nat) : bool :=
  forallb
    (fun matched =>
       let pct := Relevance.percentage matched total in
       same_number (JSNumber.Math_round pct)
         (JSNumber.of_Z (nearest (100 * Z.of_nat matched) (Z.of_nat total)))
       && Bool.eqb (JSNumber.geb pct (JSNumber.of_Z 30))
            (30 * Z.of_nat total <=? 100 * Z.of_nat matched)%Z)
    (seq 0 (S total)).

Definition percentage_table : bool :=
  forallb percentage_row (seq 1 rounding_bound).

(** ** Shapes of the names the simple validator reads *)

(** A run of units that all satisfy [p], one at least. *)
Definition run_of (p : ascii -> bool) (s : string) : Prop :=
  s <> "" /\ JSString.all_units p s = true.

(** No unit of [d] is a line terminator: what [(.+)$] asks of the rest
    of a name. *)
Definition one_line (d : string) : bool :=
  JSString.all_units (fun c => negb (SimpleValidator.line_terminator c)) d.

(** A description the three tests of the validators let through: not
    empty, on one line, without a space, without an underscore, and equal
    to its lower-cased form. *)
Definition accepted_description (d : string) : Prop :=
  d <> "" /\
  forall c, In c (list_ascii_of_string d) ->
    SimpleValidator.line_terminator c = false /\
    c <> " "%char /\ c <> "_"%char /\ JSString.toLowerCase_unit c = c.

(** The name a suggestion leads to: the suggestion when the result holds
    one, the name itself otherwise. *)
Definition follow_branch (CONFIG : SimpleValidator.config) (name : string) : string :=
  match SimpleValidator.suggestion (SimpleValidator.validateBranchName CONFIG name) with
  | Some s => s
  | None => name
  end.

Definition follow_commit (CONFIG : SimpleValidator.config) (name : string) : string :=
  match SimpleValidator.suggestion (SimpleValidator.validateCommitMessage CONFIG name) with
  | Some s => s
  | None => name
  end.

(** The description the three tests lead to: the description of the
    suggestion when a test fails, the description itself when none does. *)
Definition next_description (d : string) : string :=
  if JSString.includes d " " then SimpleValidator.replace_spaces false d
  else if JSString.includes d "_" then SimpleValidator.replace_underscores d
  else if negb (String.eqb d (JSString.toLowerCase d)) then JSString.toLowerCase d
  else d.

(** [s] without its dashes and underscores. *)
Fixpoint without_separators (s : string) : string :=
  match s with
  | EmptyString => EmptyString
  | String c s' =>
      if Relevance.dash_or_underscore c then without_separators s'
      else String c (without_separators s')
  end.

(** No unit of [d] is [x]. *)
Definition no_unit (x : ascii) (d : string) : Prop :=
  forall c, In c (list_ascii_of_string d) -> c <> x.

(** The object [validateFormat] answers a name of the right format with. *)
Definition formatResult (type key num : string) : SimpleValidator.result :=
  {| SimpleValidator.valid := true;
     SimpleValidator.message_ := SimpleValidator.FormatIsValid type;
     SimpleValidator.ticketId_ := Some (key ++ "-" ++ num);
     SimpleValidator.projectKey := Some key;
     SimpleValidator.skipped := false;
     SimpleValidator.suggestion := None |}.

(** The object a valid name is answered with. *)
Definition validName (p : SimpleValidator.pattern) (key num : string)
    : SimpleValidator.result :=
  {| SimpleValidator.valid := true;
     SimpleValidator.message_ := SimpleValidator.NameIsValid p;
     SimpleValidator.ticketId_ := Some (key ++ "-" ++ num);
     SimpleValidator.projectKey := Some key;
     SimpleValidator.skipped := false;
     SimpleValidator.suggestion := None |}.

(** The prefixes of the first validator, without their slash. *)
Definition shop_prefixes : list string := ["feature"; "bugfix"; "hotfix"].

(** ** The statistics of the cache *)

(** What the loop of [getCacheStats] has counted after the entries
    [seen]. *)
Definition scanned (total : nat) (seen : JiraValidator.cache)
    (s : JiraValidator.scan) : Prop :=
  JiraValidator.totalEntries (JiraValidator.stats_ s) = total /\
  JiraValidator.validEntries (JiraValidator.stats_ s)
  = List.length (filter (fun kv => JiraValidator.valid (snd kv)) seen) /\
  JiraValidator.invalidEntries (JiraValidator.stats_ s)
  = List.length (filter (fun kv => negb (JiraValidator.valid (snd kv))) seen) /\
  JiraValidator.skippedEntries (JiraValidator.stats_ s)
  = List.length (filter (fun kv => JiraValidator.skipped (snd kv)) seen).

(** [d] names an entry of [l] and its time stamp. *)
Definition dates (l : JiraValidator.cache) (d : JiraValidator.dated) : Prop :=
  exists e, In (JiraValidator.ticketId_ d, e) l /\
            JiraValidator.timestamp e = JiraValidator.date d.

(** [o] is right as [oldestEntry] of [l]: absent for the empty table
    only, and otherwise an entry that none is older than. *)
Definition oldest_of (l : JiraValidator.cache) (o : option JiraValidator.dated) : Prop :=
  match o with
  | None => l = []
  | Some d =>
      dates l d /\
      forall kv, In kv l ->
        (JiraValidator.date d <= JiraValidator.timestamp (snd kv))%Z
  end.

(** [o] is right as [newestEntry] of [l]: an entry with a positive time
    stamp that none is newer than, and absent when no time stamp is
    positive. *)
Definition newest_of (l : JiraValidator.cache) (o : option JiraValidator.dated) : Prop :=
  match o with
  | None => forall kv, In kv l -> (JiraValidator.timestamp (snd kv) <= 0)%Z
  | Some d =>
      (0 < JiraValidator.date d)%Z /\ dates l d /\
      forall kv, In kv l ->
        (JiraValidator.timestamp (snd kv) <= JiraValidator.date d)%Z
  end.

(** What the loop of [getCacheStats] knows of the two dates after the
    entries [seen]. *)
Definition dated_scan (seen : JiraValidator.cache) (s : JiraValidator.scan) : Prop :=
  oldest_of seen (JiraValidator.oldestEntry (JiraValidator.stats_ s)) /\
  JiraValidator.oldestTime s
  = option_map JiraValidator.date (JiraValidator.oldestEntry (JiraValidator.stats_ s)) /\
  newest_of seen (JiraValidator.newestEntry (JiraValidator.stats_ s)) /\
  JiraValidator.newestTime s
  = match JiraValidator.newestEntry (JiraValidator.stats_ s) with
    | Some d => JiraValidator.date d
    | None => 0%Z
    end.

(** ** Inputs of the examples *)

(** An engine that rejects every source.  The examples use ticket IDs
    without operators, for which no engine is consulted. *)
Definition rejecting_engine : string -> string -> option string :=
  fun _ _ => None.

(** The extraction at its default constants. *)
Definition default_extractor : string -> list string :=
  Keywords.extractKeywords Keywords.defaultConfig.

(** The extraction with the cap raised to 40 keywords. *)
Definition extractor_40 : string -> list string :=
  Keywords.extractKeywords
    {| Keywords.minKeywordLength := 3;
       Keywords.maxKeywords := 40;
       Keywords.stoplist := Keywords.stoplist Keywords.defaultConfig |}.

(** A summary of forty words, and a branch name that holds the first
    twenty-three of them. *)
Definition forty_words : string :=
  "k00 k01 k02 k03 k04 k05 k06 k07 k08 k09 k10 k11 k12 k13 k14 k15 k16 k17 k18 k19 k20 k21 k22 z00 z01 z02 z03 z04 z05 z06 z07 z08 z09 z10 z11 z12 z13 z14 z15 z16".

Definition twenty_three_of_forty : string :=
  "feature/SHOP-1-k00-k01-k02-k03-k04-k05-k06-k07-k08-k09-k10-k11-k12-k13-k14-k15-k16-k17-k18-k19-k20-k21-k22".

(** The sentence of the guide, its ticket and two of its branches. *)
Definition gift_cards_summary : string :=
  "POC - create app to restrict gift cards".

Definition shop_8548 : string := "SHOP-8548".

Definition gift_card_app : string := "feature/SHOP-8548-gift-card-app".

Definition user_authentication : string :=
  "feature/SHOP-8548-user-authentication".

(** A URL parser that rejects every address.  The examples that reach
    [new URL] do so with an address without scheme, which the host
    rejects. *)
Definition rejecting_parser : string -> bool := fun _ => false.

(** A configuration of the ticket check without the settings of the
    connection, and one with them. *)
Definition unconfigured : JiraValidator.config :=
  {| JiraValidator.apiUrl := None;
     JiraValidator.username := None;
     JiraValidator.apiToken := None;
     JiraValidator.projectKeys := ["SHOP"];
     JiraValidator.skipValidation := false;
     JiraValidator.cacheTTL := 60;
     JiraValidator.timeout := 10000 |}.

(** A configuration whose address has no scheme. *)
Definition no_scheme : JiraValidator.config :=
  {| JiraValidator.apiUrl := Some "company.atlassian.net";
     JiraValidator.username := Some "dev@company.com";
     JiraValidator.apiToken := Some "token";
     JiraValidator.projectKeys := ["SHOP"];
     JiraValidator.skipValidation := false;
     JiraValidator.cacheTTL := 60;
     JiraValidator.timeout := 10000 |}.

Definition configured : JiraValidator.config :=
  {| JiraValidator.apiUrl := Some "https://company.atlassian.net";
     JiraValidator.username := Some "dev@company.com";
     JiraValidator.apiToken := Some "token";
     JiraValidator.projectKeys := ["SHOP"];
     JiraValidator.skipValidation := false;
     JiraValidator.cacheTTL := 60;
     JiraValidator.timeout := 10000 |}.

(** The answer of the API for the ticket of the guide. *)
Definition gift_cards_response : JiraValidator.response :=
  {| JiraValidator.statusCode := 200;
     JiraValidator.issueData :=
       JiraValidator.Read
         {| JiraValidator.issue_summary := Some gift_cards_summary;
            JiraValidator.issue_status := "Open";
            JiraValidator.issue_assignee := None |};
     JiraValidator.errorData := JiraValidator.Read None |}.

(** An entry stored for the ticket of the guide at the time 1000. *)
Definition gift_cards_entry : JiraValidator.result :=
  {| JiraValidator.valid := true;
     JiraValidator.message_ :=
       JiraValidator.TicketExists shop_8548 (Some gift_cards_summary);
     JiraValidator.summary := Some gift_cards_summary;
     JiraValidator.status := Some "Open";
     JiraValidator.assignee := Some "Unassigned";
     JiraValidator.timestamp := 1000;
     JiraValidator.skipped := false;
     JiraValidator.relevance := None |}.

(** * Properties *)

Section StringFacts.
Import JSString.

Lemma toLowerCase_unit_idempotent (c : ascii) :
  toLowerCase_unit (toLowerCase_unit c) = toLowerCase_unit c.
Proof.
  destruct c as [[] [] [] [] [] [] [] []]; reflexivity.
Qed.

Lemma toLowerCase_idempotent (s : string) :
  toLowerCase (toLowerCase s) = toLowerCase s.
Proof.
  induction s as [|c s IH]; simpl.
  - reflexivity.
  - now rewrite toLowerCase_unit_idempotent, IH.
Qed.

Lemma startsWith_iff (s p : string) :
  startsWith s p = true <-> exists after, s = p ++ after.
Proof.
  revert s.
  induction p as [|c p IH]; intros s; simpl.
  - split; [intros _; now exists s | reflexivity].
  - destruct s as [|d s].
    + split; [discriminate | intros [a H]; discriminate].
    + rewrite andb_true_iff, Ascii.eqb_eq, IH. split.
      * intros [-> [a ->]]. now exists a.
      * intros [a H]. injection H as -> ->. split; [reflexivity | now exists a].
Qed.

Lemma includes_iff (s k : string) :
  includes s k = true <-> occurs_in k s.
Proof.
  unfold occurs_in.
  induction s as [|c s IH]; simpl.
  - rewrite orb_false_r, startsWith_iff. split.
    + intros [a H]. now exists "", a.
    + intros (b & a & H). destruct b; [now exists a | discriminate].
  - rewrite orb_true_iff, startsWith_iff, IH. split.
    + intros [[a H] | (b & a & H)].
      * now exists "", a.
      * exists (String c b), a. simpl. now rewrite H.
    + intros (b & a & H). destruct b as [|d b].
      * left. now exists a.
      * right. simpl in H. injection H as _ H. now exists b, a.
Qed.

Lemma length_append (a b : string) :
  String.length (a ++ b) = String.length a + String.length b.
Proof. induction a; simpl; auto. Qed.

(** The first four units of a keyword that has four. *)
Lemma substring_0_4_prefix (p rest : string) :
  String.length p = 4 -> substring 0 4 (p ++ rest) = p.
Proof.
  intros H.
  destruct p as [|a [|b [|c [|d [|e p]]]]]; try discriminate.
  destruct rest; reflexivity.
Qed.

Lemma substring_0_4_split (k : string) :
  4 <= String.length k ->
  exists rest, k = substring 0 4 k ++ rest /\ String.length (substring 0 4 k) = 4.
Proof.
  intros H.
  destruct k as [|a [|b [|c [|d k]]]]; simpl in H; try lia.
  exists k. destruct k; split; reflexivity.
Qed.

End StringFacts.

Section ListFacts.

Lemma member_iff (k : string) (l : list string) :
  existsb (String.eqb k) l = true <-> In k l.
Proof.
  rewrite existsb_exists. split.
  - intros (x & Hin & Heq). apply String.eqb_eq in Heq. now subst.
  - intros Hin. exists k. split; [assumption | apply String.eqb_refl].
Qed.

Lemma subsequence_filter {A : Type} (p : A -> bool) (l : list A) :
  subsequence (filter p l) l.
Proof.
  induction l as [|x l IH]; simpl.
  - constructor.
  - destruct (p x); now constructor.
Qed.

Lemma filter_halves {A : Type} (p : A -> bool) (l : list A) :
  Permutation (filter p l ++ filter (fun x => negb (p x)) l) l.
Proof.
  induction l as [|x l IH]; simpl.
  - constructor.
  - destruct (p x); simpl.
    + now constructor.
    + symmetry. apply Permutation_cons_app. now symmetry.
Qed.

(** Removing from [l] what [filter p l] holds leaves what fails [p]. *)
Lemma filter_not_selected (p : string -> bool) (l : list string) :
  filter (fun k => negb (existsb (String.eqb k) (filter p l))) l
  = filter (fun k => negb (p k)) l.
Proof.
  apply filter_ext_in. intros k Hin. f_equal.
  destruct (p k) eqn:E.
  - apply member_iff, filter_In. now split.
  - destruct (existsb (String.eqb k) (filter p l)) eqn:E'; [|reflexivity].
    apply member_iff, filter_In in E'. destruct E' as [_ E']. congruence.
Qed.

End ListFacts.

Section NumberFacts.
Import JSNumber.

Lemma same_number_eq (x y : Number) : same_number x y = true -> x = y.
Proof.
  destruct x, y; simpl; try discriminate; try reflexivity.
  - intros H. apply Bool.eqb_prop in H. now subst.
  - intros H. apply Bool.eqb_prop in H. now subst.
  - intros H. apply andb_true_iff in H as [H He].
    apply andb_true_iff in H as [Hs Hm].
    apply Bool.eqb_prop in Hs. apply Pos.eqb_eq in Hm. apply Z.eqb_eq in He.
    now subst.
Qed.

Lemma percentage_table_checked : percentage_table = true.
Proof. vm_compute. reflexivity. Qed.

(** What the table gives for one pair of counts. *)
Lemma percentage_exact (matched total : nat) :
  matched <= total -> 1 <= total <= rounding_bound ->
  Math_round (Relevance.percentage matched total)
    = of_Z (nearest (100 * Z.of_nat matched) (Z.of_nat total))
  /\ geb (Relevance.percentage matched total) (of_Z 30)
    = (30 * Z.of_nat total <=? 100 * Z.of_nat matched)%Z.
Proof.
  intros Hm Ht.
  pose proof percentage_table_checked as T.
  unfold percentage_table in T. rewrite forallb_forall in T.
  assert (Hrow : percentage_row total = true).
  { apply T, in_seq. lia. }
  unfold percentage_row in Hrow. rewrite forallb_forall in Hrow.
  assert (Hin : In matched (seq 0 (S total))) by (apply in_seq; lia).
  apply Hrow in Hin. apply andb_true_iff in Hin as [H1 H2].
  split.
  - now apply same_number_eq.
  - now apply Bool.eqb_prop.
Qed.

(** [nearest a b] is within one half of [a / b], the upper end left out. *)
Lemma nearest_bounds (a b : Z) :
  (0 < b)%Z ->
  (2 * nearest a b * b - b <= 2 * a < 2 * nearest a b * b + b)%Z.
Proof.
  intros Hb. unfold nearest.
  pose proof (Z.div_mod (2 * a + b) (2 * b) ltac:(lia)) as D.
  pose proof (Z.mod_pos_bound (2 * a + b) (2 * b) ltac:(lia)) as M.
  nia.
Qed.

Lemma nearest_percent_range (m n : Z) :
  (0 <= m <= n)%Z -> (0 < n)%Z -> (0 <= nearest (100 * m) n <= 100)%Z.
Proof.
  intros Hm Hn.
  pose proof (nearest_bounds (100 * m) n Hn) as B.
  nia.
Qed.

End NumberFacts.

Section ScorerFacts.
Import JSString JSNumber Relevance.

Variable extractKeywords : string -> list string.
Variable engine : string -> string -> option string.

(** The verdict of a call that reaches the scoring, the missing keywords
    written as the keywords that fail the test. *)
Lemma scoring_returns (name s ticketId clean : string) :
  s <> "" ->
  cleanName engine name ticketId = Some clean ->
  validateContentRelevance extractKeywords engine name (Some s) ticketId
  = let keywords := extractKeywords s in
    let matched := filter (keywordMatches clean) keywords in
    let pct := percentage (List.length matched) (List.length keywords) in
    Returned {| relevant := geb pct (of_Z 30);
                matchPercentage := Some (Math_round pct);
                matchedKeywords := Some matched;
                missingKeywords := filter (fun k => negb (keywordMatches clean k)) keywords;
                allKeywords := Some keywords;
                message_ :=
                  if geb pct (of_Z 30)
                  then ContentRelevance pct (List.length matched) (List.length keywords)
                  else LowContentRelevance pct s |}.
Proof.
  intros Hs Hc. unfold validateContentRelevance.
  destruct s as [|c s]; [congruence|].
  rewrite Hc. cbv zeta. now rewrite filter_not_selected.
Qed.

Lemma missing_summary_returns (name ticketId : string) (summary : option string) :
  summary = None \/ summary = Some "" ->
  validateContentRelevance extractKeywords engine name summary ticketId
  = Returned {| relevant := true; matchPercentage := None;
                matchedKeywords := None; missingKeywords := [];
                allKeywords := None; message_ := CannotValidate |}.
Proof. intros [-> | ->]; reflexivity. Qed.

(** A ticket ID without operators is removed by the scan of
    [replaceTicket]: the name is always cleaned. *)
Lemma cleanName_literal (name ticketId : string) :
  literal_source (toLowerCase ticketId) = true ->
  cleanName engine name ticketId
  = Some (removeCategoryPrefix
            (replaceTicket (S (String.length (toLowerCase name)))
               (toLowerCase ticketId) (toLowerCase name))).
Proof.
  intros H. unfold cleanName, removeTicketId. now rewrite H.
Qed.

Lemma cleanName_lower (name ticketId : string) :
  cleanName engine (toLowerCase name) (toLowerCase ticketId)
  = cleanName engine name ticketId.
Proof.
  unfold cleanName. now rewrite !toLowerCase_idempotent.
Qed.

Lemma keywordMatches_iff (clean k : string) :
  keywordMatches clean k = true <->
  occurs_in k clean \/
  (4 <= String.length k /\
   exists first4 rest,
     k = first4 ++ rest /\ String.length first4 = 4 /\ occurs_in first4 clean).
Proof.
  unfold keywordMatches.
  rewrite orb_true_iff, andb_true_iff, Nat.leb_le, !includes_iff.
  split; (intros [H | [Hlen H]]; [now left | right; split; [assumption|]]).
  - destruct (substring_0_4_split k Hlen) as (rest & Hk & H4).
    now exists (substring 0 4 k), rest.
  - destruct H as (first4 & rest & -> & H4 & Hocc).
    now rewrite substring_0_4_prefix.
Qed.

(** With a ticket ID without operators every call returns a verdict. *)
Lemma scorer_returns_on_literal
    (name : string) (summary : option string) (ticketId : string) :
  literal_source (toLowerCase ticketId) = true ->
  exists v,
    validateContentRelevance extractKeywords engine name summary ticketId = Returned v.
Proof.
  intros L. destruct summary as [[|c s]|].
  - eexists. reflexivity.
  - rewrite (scoring_returns name (String c s) ticketId _
               ltac:(discriminate) (cleanName_literal name ticketId L)).
    eexists. reflexivity.
  - eexists. reflexivity.
Qed.

(** With a summary, a ticket ID that begins with a quantifier makes
    every call throw. *)
Lemma throws_on_leading_quantifier (name s ticketId : string) :
  s <> "" ->
  starts_with_quantifier (toLowerCase ticketId) = true ->
  validateContentRelevance extractKeywords engine name (Some s) ticketId
  = Thrown SyntaxError.
Proof.
  intros Hs Hq. unfold validateContentRelevance.
  destruct s as [|c s]; [congruence|].
  unfold cleanName, removeTicketId. rewrite Hq.
  destruct (toLowerCase ticketId) as [|q r]; [discriminate|].
  assert (L : literal_source (String q r) = false).
  { unfold starts_with_quantifier in Hq.
    destruct q as [[] [] [] [] [] [] [] []]; try discriminate Hq; reflexivity. }
  now rewrite L.
Qed.

(** C2.  A keyword of the keyword set is among the matched keywords
    exactly when it occurs in the cleaned name, or it has four units at
    least and its first four units occur there; a keyword of fewer than
    four units is matched only when it occurs whole; and the missing
    keywords are the keywords that are not matched. *)
Theorem keyword_matching_rule (name s ticketId clean : string) :
  s <> "" ->
  cleanName engine name ticketId = Some clean ->
  exists v matched,
    validateContentRelevance extractKeywords engine name (Some s) ticketId = Returned v /\
    matchedKeywords v = Some matched /\
    forall k, In k (extractKeywords s) ->
      (In k matched <->
         occurs_in k clean \/
         (4 <= String.length k /\
          exists first4 rest,
            k = first4 ++ rest /\ String.length first4 = 4 /\ occurs_in first4 clean)) /\
      (String.length k < 4 -> (In k matched <-> occurs_in k clean)) /\
      (In k (missingKeywords v) <-> ~ In k matched).
Proof.
  intros Hs Hc. rewrite (scoring_returns _ _ _ _ Hs Hc). cbv zeta.
  eexists. eexists. split; [reflexivity|]. split; [reflexivity|].
  intros k Hk. cbn [missingKeywords].
  assert (M : In k (filter (keywordMatches clean) (extractKeywords s))
              <-> keywordMatches clean k = true).
  { rewrite filter_In. tauto. }
  split; [|split].
  - rewrite M. apply keywordMatches_iff.
  - intros Hshort. rewrite M, keywordMatches_iff. split.
    + intros [H | [H4 _]]; [assumption | lia].
    + intros H. now left.
  - rewrite filter_In, M.
    destruct (keywordMatches clean k); split; intros H; try tauto; try congruence.
    destruct H as [_ H]. discriminate.
Qed.

(** C4.  The matched and the missing keywords split the keyword set: a
    keyword is in the set exactly when it is in one of the two lists, no
    keyword is in both, each list is the keyword list with some elements
    left out and the order kept, and the two together are the keyword
    list rearranged. *)
Theorem matched_missing_partition (name s ticketId clean : string) :
  s <> "" ->
  cleanName engine name ticketId = Some clean ->
  exists v matched,
    validateContentRelevance extractKeywords engine name (Some s) ticketId = Returned v /\
    matchedKeywords v = Some matched /\
    allKeywords v = Some (extractKeywords s) /\
    (forall k, In k (extractKeywords s) <-> In k matched \/ In k (missingKeywords v)) /\
    (forall k, ~ (In k matched /\ In k (missingKeywords v))) /\
    subsequence matched (extractKeywords s) /\
    subsequence (missingKeywords v) (extractKeywords s) /\
    Permutation (matched ++ missingKeywords v)%list (extractKeywords s).
Proof.
  intros Hs Hc. rewrite (scoring_returns _ _ _ _ Hs Hc). cbv zeta.
  eexists. eexists. split; [reflexivity|]. split; [reflexivity|].
  cbn [missingKeywords allKeywords].
  split; [reflexivity|].
  split; [|split; [|split; [|split]]].
  - intros k. rewrite !filter_In.
    destruct (keywordMatches clean k); intuition congruence.
  - intros k. rewrite !filter_In. intros [[_ H1] [_ H2]].
    rewrite H1 in H2. discriminate.
  - apply subsequence_filter.
  - apply subsequence_filter.
  - apply filter_halves.
Qed.

(** Where the rounding is right.  For a keyword set of at most
    [rounding_bound] keywords the rounded percentage is an integer between
    0 and 100: 100 for the empty set, and otherwise the integer nearest to
    [100 * matched / total], a tie going up. *)
Theorem matchPercentage_nearest (name s ticketId clean : string) :
  s <> "" ->
  cleanName engine name ticketId = Some clean ->
  List.length (extractKeywords s) <= rounding_bound ->
  exists v matched p,
    validateContentRelevance extractKeywords engine name (Some s) ticketId = Returned v /\
    matchedKeywords v = Some matched /\
    matchPercentage v = Some (of_Z p) /\
    (0 <= p <= 100)%Z /\
    (extractKeywords s = [] -> p = 100%Z) /\
    (extractKeywords s <> [] ->
       let m := Z.of_nat (List.length matched) in
       let n := Z.of_nat (List.length (extractKeywords s)) in
       p = nearest (100 * m) n /\
       (2 * p * n - n <= 2 * (100 * m) < 2 * p * n + n)%Z).
Proof.
  intros Hs Hc Hn. rewrite (scoring_returns _ _ _ _ Hs Hc). cbv zeta.
  set (kws := extractKeywords s) in *.
  set (matched := filter (keywordMatches clean) kws).
  assert (Hm : List.length matched <= List.length kws) by apply filter_length_le.
  destruct kws as [|k0 kws'] eqn:E.
  - exists {| relevant := true; matchPercentage := Some (of_Z 100);
              matchedKeywords := Some []; missingKeywords := [];
              allKeywords := Some [];
              message_ := ContentRelevance (of_Z 100) 0 0 |}, [], 100%Z.
    repeat split; try reflexivity; try lia; congruence.
  - rewrite <- E in *.
    assert (Hpos : 1 <= List.length kws) by (rewrite E; simpl; lia).
    destruct (percentage_exact _ _ Hm (conj Hpos Hn)) as [R _].
    eexists. exists matched. eexists.
    split; [reflexivity|]. split; [reflexivity|].
    cbn [matchPercentage]. rewrite R.
    split; [reflexivity|].
    split; [apply nearest_percent_range; lia|].
    split; [congruence|].
    intros _. cbv zeta. split; [reflexivity|].
    apply nearest_bounds. lia.
Qed.


(** C5, as amended.  Without a summary (absent or empty) the scorer
    returns, whatever the name and the ticket ID, a verdict that is
    [relevant] with an empty list of missing keywords and that carries no
    percentage and no list of matched keywords.  With a summary whose
    keyword set is empty, and a name that is cleaned, it returns 100 with
    empty matched and missing lists. *)
Theorem vacuous_verdicts (name ticketId : string) :
  (forall summary, summary = None \/ summary = Some "" ->
     validateContentRelevance extractKeywords engine name summary ticketId
     = Returned {| relevant := true; matchPercentage := None;
                   matchedKeywords := None; missingKeywords := [];
                   allKeywords := None; message_ := CannotValidate |}) /\
  (forall s clean,
     s <> "" ->
     extractKeywords s = [] ->
     cleanName engine name ticketId = Some clean ->
     validateContentRelevance extractKeywords engine name (Some s) ticketId
     = Returned {| relevant := true; matchPercentage := Some (of_Z 100);
                   matchedKeywords := Some []; missingKeywords := [];
                   allKeywords := Some [];
                   message_ := ContentRelevance (of_Z 100) 0 0 |}).
Proof.
  split.
  - apply missing_summary_returns.
  - intros s clean Hs Hk Hc.
    rewrite (scoring_returns _ _ _ _ Hs Hc), Hk. reflexivity.
Qed.

(** C6.  With the ticket ID [*] the pattern source is [*[-_]*], which
    begins with a quantifier: the scorer throws, whatever the keywords. *)
Theorem quantifier_ticket_throws :
  validateContentRelevance extractKeywords engine
    "feature/SHOP-8548-gift-card-app"
    (Some "POC - create app to restrict gift cards") "*"
  = Thrown SyntaxError.
Proof. reflexivity. Qed.

(** C8.  Scoring a name and scoring its lower-cased form give the same
    result, the ticket ID being lower-cased or not: the same verdict, so
    the same percentage and the same matched and missing keywords. *)
Theorem scoring_case_insensitive
    (name : string) (summary : option string) (ticketId : string) :
  validateContentRelevance extractKeywords engine (toLowerCase name) summary ticketId
  = validateContentRelevance extractKeywords engine name summary ticketId
  /\ validateContentRelevance extractKeywords engine (toLowerCase name) summary
       (toLowerCase ticketId)
     = validateContentRelevance extractKeywords engine name summary ticketId.
Proof.
  assert (L : cleanName engine (toLowerCase name) ticketId
              = cleanName engine name ticketId).
  { unfold cleanName. now rewrite toLowerCase_idempotent. }
  unfold validateContentRelevance.
  split; destruct summary as [[|c s]|]; try reflexivity.
  - now rewrite L.
  - now rewrite cleanName_lower.
Qed.

(** C9.  With the keywords create, app, restrict, gift, cards and the
    ticket SHOP-8548, the name feature/SHOP-8548-gift-card-app is cleaned
    to gift-card-app; app, gift and cards are matched (cards through
    card, its first four units), create and restrict are missing, and the
    percentage is 60. *)
Theorem gift_card_app_scenario (summary : string) :
  summary <> "" ->
  extractKeywords summary = ["create"; "app"; "restrict"; "gift"; "cards"] ->
  exists v,
    validateContentRelevance extractKeywords engine
      "feature/SHOP-8548-gift-card-app" (Some summary) "SHOP-8548" = Returned v /\
    matchedKeywords v = Some ["app"; "gift"; "cards"] /\
    missingKeywords v = ["create"; "restrict"] /\
    matchPercentage v = Some (of_Z 60) /\
    cleanName engine "feature/SHOP-8548-gift-card-app" "SHOP-8548" = Some "gift-card-app" /\
    includes "gift-card-app" "cards" = false /\
    includes "gift-card-app" (substring 0 4 "cards") = true.
Proof.
  intros Hs Hk.
  assert (Hc : cleanName engine "feature/SHOP-8548-gift-card-app" "SHOP-8548"
               = Some "gift-card-app") by reflexivity.
  rewrite (scoring_returns _ _ _ _ Hs Hc), Hk. cbv zeta.
  eexists. split; [reflexivity|].
  repeat split; vm_compute; reflexivity.
Qed.

End ScorerFacts.

Section RegExpFacts.
Import JSString Relevance.

(** The scan of [replaceTicket] needs no more rounds than the subject has
    units: any two such numbers of rounds give the same result. *)
Lemma replaceTicket_rounds (lit : string) (n m : nat) (s : string) :
  String.length s <= n -> String.length s <= m ->
  replaceTicket n lit s = replaceTicket m lit s.
Proof.
  assert (E : forall k, replaceTicket k lit "" = "").
  { intros [|k]; [reflexivity|]. simpl. unfold matchTicketAt.
    destruct (startsWith "" lit); [|reflexivity].
    now destruct (String.length lit). }
  revert m s. induction n as [|n IH]; intros m s Hn Hm.
  - destruct s; [|simpl in Hn; lia]. now rewrite !E.
  - destruct m as [|m].
    + destruct s; [|simpl in Hm; lia]. now rewrite !E.
    + simpl. destruct (matchTicketAt lit s) as [rest|].
      * destruct (String.length rest <? String.length s)%nat eqn:L.
        -- apply Nat.ltb_lt in L. apply IH; lia.
        -- destruct s; [reflexivity|]. f_equal. simpl in Hn, Hm. apply IH; lia.
      * destruct s; [reflexivity|]. f_equal. simpl in Hn, Hm. apply IH; lia.
Qed.

End RegExpFacts.

Section KeywordFacts.
Import JSString Keywords.

Lemma dedupe_In (seen l : list string) (w : string) :
  In w (dedupe seen l) <-> In w l /\ ~ In w seen.
Proof.
  revert seen. induction l as [|x l IH]; intros seen; simpl.
  - tauto.
  - destruct (member x seen) eqn:E.
    + apply member_iff in E. rewrite IH. intuition congruence.
    + assert (N : ~ In x seen).
      { intros H. apply member_iff in H. unfold member in E. congruence. }
      simpl. rewrite IH. simpl.
      destruct (string_dec x w) as [->|ne]; intuition congruence.
Qed.

Lemma dedupe_NoDup (seen l : list string) : NoDup (dedupe seen l).
Proof.
  revert seen. induction l as [|x l IH]; intros seen; simpl.
  - constructor.
  - destruct (member x seen); [apply IH|].
    constructor; [|apply IH].
    rewrite dedupe_In. simpl. tauto.
Qed.

Lemma dedupe_subsequence (seen l : list string) : subsequence (dedupe seen l) l.
Proof.
  revert seen. induction l as [|x l IH]; intros seen; simpl.
  - constructor.
  - destruct (member x seen).
    + apply subsequence_skip, IH.
    + apply subsequence_keep, IH.
Qed.

(** At the first occurrence of a word the list of first occurrences has
    taken what came before, and takes the word next. *)
Lemma dedupe_first_seen (seen before after : list string) (w : string) :
  ~ In w before -> ~ In w seen ->
  exists rest,
    dedupe seen (before ++ w :: after)%list = (dedupe seen before ++ w :: rest)%list.
Proof.
  revert seen. induction before as [|x before IH]; intros seen Hb Hs; simpl.
  - destruct (member w seen) eqn:E.
    + apply member_iff in E. contradiction.
    + eexists. reflexivity.
  - simpl in Hb. destruct (member x seen).
    + apply IH; tauto.
    + destruct (IH (x :: seen)) as [rest R]; [tauto | simpl; intuition congruence |].
      exists rest. simpl. now rewrite R.
Qed.

Lemma subsequence_trans {A : Type} (l1 l2 l3 : list A) :
  subsequence l1 l2 -> subsequence l2 l3 -> subsequence l1 l3.
Proof.
  intros H12 H23. revert l1 H12.
  induction H23 as [|x l2 l3 H IH|x l2 l3 H IH]; intros l1 H12.
  - assumption.
  - constructor. now apply IH.
  - inversion H12; subst.
    + apply subsequence_skip. now apply IH.
    + apply subsequence_keep. now apply IH.
Qed.

Lemma subsequence_firstn {A : Type} (n : nat) (l : list A) :
  subsequence (firstn n l) l.
Proof.
  revert n. induction l as [|x l IH]; intros [|n]; simpl.
  - constructor.
  - constructor.
  - apply subsequence_skip, (IH 0).
  - apply subsequence_keep, IH.
Qed.

(** C7.  The keywords extracted from a text have no duplicates, none is
    shorter than the minimum length or on the stoplist, and there are at
    most the maximum count of them.  They are the first of the list of
    first occurrences of the candidate words: that list holds every
    candidate once, and at the first occurrence of a word it holds, before
    the word, the words that came before it. *)
Theorem extractKeywords_properties (cfg : config) (text : string) :
  NoDup (extractKeywords cfg text) /\
  (forall k, In k (extractKeywords cfg text) ->
     minKeywordLength cfg <= String.length k /\ ~ In k (stoplist cfg)) /\
  List.length (extractKeywords cfg text) <= maxKeywords cfg /\
  subsequence (extractKeywords cfg text) (candidates cfg text) /\
  exists firsts dropped,
    firsts = (extractKeywords cfg text ++ dropped)%list /\
    List.length (extractKeywords cfg text)
      = Nat.min (maxKeywords cfg) (List.length firsts) /\
    NoDup firsts /\
    (forall w, In w firsts <-> In w (candidates cfg text)) /\
    (forall before w after,
       candidates cfg text = (before ++ w :: after)%list ->
       ~ In w before ->
       exists earlier later,
         firsts = (earlier ++ w :: later)%list /\
         forall x, In x earlier <-> In x before).
Proof.
  unfold extractKeywords.
  set (cands := candidates cfg text).
  set (firsts := dedupe [] cands).
  assert (ND : NoDup firsts) by apply dedupe_NoDup.
  assert (Split : (firstn (maxKeywords cfg) firsts ++ skipn (maxKeywords cfg) firsts)%list
                  = firsts) by apply firstn_skipn.
  assert (Hin : forall k, In k (firstn (maxKeywords cfg) firsts) -> In k cands).
  { intros k H. assert (In k firsts) by (rewrite <- Split; apply in_or_app; now left).
    unfold firsts in *. now apply dedupe_In in H0. }
  split; [|split; [|split; [|split]]].
  - rewrite <- Split in ND. now apply NoDup_app_remove_r in ND.
  - intros k H. apply Hin in H. unfold cands, candidates in H.
    apply filter_In in H as [H Hstop]. apply filter_In in H as [_ Hlen].
    split.
    + now apply Nat.leb_le.
    + intros Hs. apply member_iff in Hs. unfold member in Hstop.
      rewrite Hs in Hstop. discriminate.
  - apply firstn_le_length.
  - apply subsequence_trans with firsts.
    + apply subsequence_firstn.
    + apply dedupe_subsequence.
  - exists firsts, (skipn (maxKeywords cfg) firsts).
    split; [now symmetry|].
    split; [apply length_firstn|].
    split; [assumption|].
    split.
    + intros w. unfold firsts. rewrite dedupe_In. simpl. tauto.
    + intros before w after Hc Hb.
      destruct (dedupe_first_seen [] before after w Hb) as [rest R]; [tauto|].
      exists (dedupe [] before), rest. split.
      * unfold firsts. now rewrite Hc.
      * intros x. rewrite dedupe_In. simpl. tauto.
Qed.

End KeywordFacts.

Section ValidatorFacts.
Import JSString SimpleValidator.

Variable CONFIG : config.

(** The key of a match of the ticket pattern has a letter at least. *)
Lemma ticketAt_key (s key num rest : string) :
  ticketAt s = Some (key, num, rest) -> exists c k, key = String c k.
Proof.
  unfold ticketAt. destruct (span is_upper s) as [k r1].
  destruct k as [|c k]; [discriminate|].
  destruct r1 as [|d r1]; [discriminate|].
  destruct d as [[] [] [] [] [] [] [] []]; try discriminate.
  destruct (span is_digit r1) as [n r3]. destruct n; [discriminate|].
  intros H. injection H as <- _ _. now exists c, k.
Qed.

Lemma extractTicketId_not_empty (name t : string) :
  extractTicketId name = Some t -> exists c r, t = String c r.
Proof.
  unfold extractTicketId.
  destruct (match_ticketId name) as [[|m0 groups]|] eqn:M; try discriminate.
  intros H. injection H as <-.
  induction name as [|a name IH]; cbn [match_ticketId] in M;
    destruct (ticketAt _) as [[[key num] rest]|] eqn:T; try discriminate.
  - apply ticketAt_key in T as (c & k & ->).
    assert (E : m0 = String c k ++ "-" ++ num) by congruence.
    rewrite E. now exists c, (k ++ "-" ++ num).
  - now apply IH.
Qed.

(** A format result that is valid carries a ticket ID, not empty. *)
Lemma validateFormat_ticket (name type : string) :
  valid (validateFormat CONFIG name type) = true ->
  exists c r, ticketId_ (validateFormat CONFIG name type) = Some (String c r).
Proof.
  unfold validateFormat.
  destruct (PATTERNS type) as [pat|]; [|discriminate].
  destruct (match_ name pat); [|discriminate].
  destruct (extractTicketId name) as [t|] eqn:E; [|discriminate].
  destruct (existsb _ _); [|discriminate].
  intros _. simpl. apply extractTicketId_not_empty in E as (c & r & ->).
  now exists c, r.
Qed.

Lemma checkDescription_ticket (p : pattern) (head description : string) (fr : result) :
  valid (checkDescription p head description fr) = true ->
  ticketId_ (checkDescription p head description fr) = ticketId_ fr.
Proof.
  unfold checkDescription.
  destruct (includes description " "); [discriminate|].
  destruct (includes description "_"); [discriminate|].
  destruct (negb _); [discriminate|].
  reflexivity.
Qed.

(** What a valid branch result carries: nothing when validation is
    skipped, and a ticket ID that is not empty otherwise. *)
Lemma validateBranchName_ticket (branchName : string) :
  valid (validateBranchName CONFIG branchName) = true ->
  if skipValidation CONFIG
  then ticketId_ (validateBranchName CONFIG branchName) = None
  else exists c r, ticketId_ (validateBranchName CONFIG branchName) = Some (String c r).
Proof.
  unfold validateBranchName.
  destruct (skipValidation CONFIG); [reflexivity|].
  cbv zeta.
  destruct (valid (validateFormat CONFIG branchName "branch")) eqn:V; simpl negb; cbv iota.
  - pose proof (validateFormat_ticket _ _ V) as T.
    destruct (match_ branchName branch) as [[|g0 [|g1 [|g2 [|g3 [|[|c d] [|g5 gs]]]]]]|];
      try (intros _; exact T).
    intros H. now rewrite (checkDescription_ticket _ _ _ _ H).
  - rewrite V. discriminate.
Qed.

Lemma validateCommitMessage_ticket (commitMessage : string) :
  valid (validateCommitMessage CONFIG commitMessage) = true ->
  if skipValidation CONFIG
  then ticketId_ (validateCommitMessage CONFIG commitMessage) = None
  else exists c r, ticketId_ (validateCommitMessage CONFIG commitMessage) = Some (String c r).
Proof.
  unfold validateCommitMessage.
  destruct (skipValidation CONFIG); [reflexivity|].
  cbv zeta.
  destruct (valid (validateFormat CONFIG commitMessage "commit")) eqn:V; simpl negb; cbv iota.
  - pose proof (validateFormat_ticket _ _ V) as T.
    destruct (match_ commitMessage commit) as [[|g0 [|g1 [|g2 [|[|c d] [|g4 gs]]]]]|];
      try (intros _; exact T).
    intros H. now rewrite (checkDescription_ticket _ _ _ _ H).
  - rewrite V. discriminate.
Qed.

(** C10.  The result of [validateBoth] holds the results of the two
    validators.  When it is valid, the ticket IDs the two results carry
    are equal.  When the two results are valid and their ticket IDs
    differ, it is not valid and its message is the mismatch of the two
    IDs. *)
Theorem validateBoth_ticket_ids (branchName commitMessage : string) :
  branchResult (validateBoth CONFIG branchName commitMessage)
    = validateBranchName CONFIG branchName /\
  commitResult (validateBoth CONFIG branchName commitMessage)
    = validateCommitMessage CONFIG commitMessage /\
  (bothValid (validateBoth CONFIG branchName commitMessage) = true ->
   forall b c,
     ticketId_ (validateBranchName CONFIG branchName) = Some b ->
     ticketId_ (validateCommitMessage CONFIG commitMessage) = Some c ->
     b = c) /\
  (valid (validateBranchName CONFIG branchName) = true ->
   valid (validateCommitMessage CONFIG commitMessage) = true ->
   ticketId_ (validateBranchName CONFIG branchName)
     <> ticketId_ (validateCommitMessage CONFIG commitMessage) ->
   bothValid (validateBoth CONFIG branchName commitMessage) = false /\
   exists b c,
     ticketId_ (validateBranchName CONFIG branchName) = Some b /\
     ticketId_ (validateCommitMessage CONFIG commitMessage) = Some c /\
     bothMessage (validateBoth CONFIG branchName commitMessage) = TicketIdMismatch b c).
Proof.
  pose proof (validateBranchName_ticket branchName) as TB.
  pose proof (validateCommitMessage_ticket commitMessage) as TC.
  unfold validateBoth.
  set (rb := validateBranchName CONFIG branchName) in *.
  set (rc := validateCommitMessage CONFIG commitMessage) in *.
  cbv zeta.
  split; [now destruct (_ && _)|].
  split; [now destruct (_ && _)|].
  destruct (valid rb) eqn:Vb; destruct (valid rc) eqn:Vc; simpl andb;
    try (split; [discriminate | intros; discriminate]).
  specialize (TB eq_refl). specialize (TC eq_refl).
  destruct (skipValidation CONFIG).
  - rewrite TB, TC. simpl. split.
    + intros _ b c H. discriminate.
    + intros _ _ H. congruence.
  - destruct TB as (cb & tb & Hb). destruct TC as (cc & tc & Hc).
    assert (Tb : truthy (ticketId_ rb) = true) by now rewrite Hb.
    assert (Tc : truthy (ticketId_ rc) = true) by now rewrite Hc.
    rewrite Tb, Tc. cbn [andb].
    set (b := String cb tb) in *. set (c := String cc tc) in *.
    rewrite Hb, Hc. cbn [differ mismatchMessage].
    destruct (String.eqb b c) eqn:E; cbn [negb bothValid bothMessage].
    + apply String.eqb_eq in E. split.
      * intros _ b' c' Hb' Hc'. congruence.
      * intros _ _ H. congruence.
    + split.
      * discriminate.
      * intros _ _ _. split; [reflexivity|]. now exists b, c.
Qed.

End ValidatorFacts.

Section TicketFacts.
Import JSString Relevance SimpleValidator.

Lemma span_fst_all (p : ascii -> bool) (s : string) :
  all_units p (fst (span p s)) = true.
Proof.
  induction s as [|c s IH]; simpl.
  - reflexivity.
  - destruct (p c) eqn:E; [|reflexivity].
    destruct (span p s) as [a b]. simpl in *.
    unfold all_units in *. simpl. now rewrite E.
Qed.

Lemma ticketAt_shape (s key num rest : string) :
  ticketAt s = Some (key, num, rest) ->
  all_units is_upper key = true /\ all_units is_digit num = true.
Proof.
  unfold ticketAt.
  pose proof (span_fst_all is_upper s) as U.
  destruct (span is_upper s) as [k r1]. simpl in U.
  destruct k as [|c k]; [discriminate|].
  destruct r1 as [|d r1]; [discriminate|].
  destruct d as [[] [] [] [] [] [] [] []]; try discriminate.
  pose proof (span_fst_all is_digit r1) as D.
  destruct (span is_digit r1) as [n r3]. simpl in D.
  destruct n; [discriminate|].
  intros H. injection H as <- <- _. now split.
Qed.

Lemma extractTicketId_shape (name t : string) :
  extractTicketId name = Some t ->
  exists key num,
    t = key ++ "-" ++ num /\
    all_units is_upper key = true /\ all_units is_digit num = true.
Proof.
  unfold extractTicketId.
  destruct (match_ticketId name) as [[|m0 groups]|] eqn:M; try discriminate.
  intros H. injection H as <-.
  induction name as [|a name IH]; cbn [match_ticketId] in M;
    destruct (ticketAt _) as [[[key num] rest]|] eqn:T; try discriminate.
  - exists key, num. split; [congruence | now apply ticketAt_shape in T].
  - now apply IH.
Qed.

Lemma lower_letter_is_literal (c : ascii) :
  is_upper c = true -> SyntaxCharacter (toLowerCase_unit c) = false.
Proof.
  destruct c as [[] [] [] [] [] [] [] []]; intros H;
    try discriminate H; reflexivity.
Qed.

Lemma lower_digit_is_literal (c : ascii) :
  is_digit c = true -> SyntaxCharacter (toLowerCase_unit c) = false.
Proof.
  destruct c as [[] [] [] [] [] [] [] []]; intros H;
    try discriminate H; reflexivity.
Qed.

Lemma literal_source_app (a b : string) :
  literal_source (a ++ b) = literal_source a && literal_source b.
Proof.
  unfold literal_source, all_units.
  induction a as [|c a IH]; simpl.
  - reflexivity.
  - now rewrite IH, andb_assoc.
Qed.

Lemma toLowerCase_app (a b : string) :
  toLowerCase (a ++ b) = toLowerCase a ++ toLowerCase b.
Proof.
  induction a as [|c a IH]; simpl; [reflexivity | now rewrite IH].
Qed.

Lemma literal_source_lower (p : ascii -> bool) (s : string) :
  (forall c, p c = true -> SyntaxCharacter (toLowerCase_unit c) = false) ->
  all_units p s = true ->
  literal_source (toLowerCase s) = true.
Proof.
  intros Hp. unfold literal_source, all_units.
  induction s as [|c s IH]; simpl.
  - reflexivity.
  - intros H. apply andb_true_iff in H as [Hc Hs].
    now rewrite (Hp c Hc), IH.
Qed.

(** The ticket IDs the validators extract hold no operator... *)
Lemma extracted_ticket_is_literal (name t : string) :
  extractTicketId name = Some t -> literal_source (toLowerCase t) = true.
Proof.
  intros H. apply extractTicketId_shape in H as (key & num & -> & U & D).
  rewrite !toLowerCase_app, !literal_source_app.
  rewrite (literal_source_lower _ _ lower_letter_is_literal U).
  rewrite (literal_source_lower _ _ lower_digit_is_literal D).
  reflexivity.
Qed.

(** ...so that the scorer returns a verdict for every one of them. *)
Lemma scorer_returns_on_extracted_ticket
    (extractKeywords : string -> list string)
    (engine : string -> string -> option string)
    (source name : string) (summary : option string) (t : string) :
  extractTicketId source = Some t ->
  exists v,
    validateContentRelevance extractKeywords engine name summary t = Returned v.
Proof.
  intros H. apply scorer_returns_on_literal.
  now apply extracted_ticket_is_literal in H.
Qed.

End TicketFacts.

(** * The properties at concrete inputs *)

Section Examples.
Import JSString JSNumber Relevance.

(** The two [replace] calls on some names. *)
Example clean_gift_card_app :
  cleanName rejecting_engine gift_card_app shop_8548 = Some "gift-card-app".
Proof. reflexivity. Qed.

Example clean_ticket_twice :
  cleanName rejecting_engine "SHOP-1__shop-1-fix-SHOP-12" "shop-1"
  = Some "fix-2".
Proof. reflexivity. Qed.

Example clean_prefix_after_ticket :
  cleanName rejecting_engine "SHOP-7-hotfix/-_login" "SHOP-7" = Some "login".
Proof. reflexivity. Qed.

Example clean_empty_ticket :
  cleanName rejecting_engine "docs/a--b_c" "" = Some "docs/abc".
Proof. reflexivity. Qed.

(** Rounding: a tie goes up, and the product of the quotient by 100 is
    not always the exact value. *)
Example round_one_of_eight :
  Math_round (percentage 1 8) = of_Z 13.
Proof. vm_compute. reflexivity. Qed.

Example percentage_three_of_five :
  percentage 3 5 = of_Z 60.
Proof. vm_compute. reflexivity. Qed.

Example percentage_one_of_three :
  Math_round (percentage 1 3) = of_Z 33 /\ percentage 1 3 <> of_Z 33.
Proof. split; vm_compute; [reflexivity | discriminate]. Qed.

Example round_below_zero :
  Math_round (div (of_Z (-1)) (of_Z 2)) = S754_zero true /\
  Math_round (div (of_Z (-3)) (of_Z 2)) = of_Z (-1) /\
  Math_round (div (of_Z 5) (of_Z 2)) = of_Z 3.
Proof. repeat split; vm_compute; reflexivity. Qed.

(** The keywords of the sentences of the guide. *)
Example keywords_of_gift_cards :
  default_extractor gift_cards_summary
  = ["create"; "app"; "restrict"; "gift"; "cards"].
Proof. reflexivity. Qed.

Example keywords_of_authentication :
  default_extractor "Create a new user authentication system"
  = ["create"; "user"; "authentication"; "system"].
Proof. reflexivity. Qed.

Example keywords_are_capped :
  default_extractor "one two three four five six seven eight nine ten one"
  = ["one"; "two"; "three"; "four"; "five"; "six"; "seven"; "eight"].
Proof. reflexivity. Qed.

(** The three branches of the guide: 100, 60 and 0 percent. *)
Example scenario_all_matched :
  exists v,
    validateContentRelevance default_extractor rejecting_engine
      "feature/SHOP-8548-create-gift-card-restriction-app"
      (Some gift_cards_summary) shop_8548 = Returned v /\
    matchPercentage v = Some (of_Z 100) /\
    matchedKeywords v = Some ["create"; "app"; "restrict"; "gift"; "cards"] /\
    missingKeywords v = [] /\ relevant v = true.
Proof. eexists. split; [vm_compute; reflexivity|]. repeat split. Qed.

Example scenario_none_matched :
  exists v,
    validateContentRelevance default_extractor rejecting_engine
      user_authentication (Some gift_cards_summary) shop_8548 = Returned v /\
    matchPercentage v = Some (of_Z 0) /\
    matchedKeywords v = Some [] /\
    missingKeywords v = ["create"; "app"; "restrict"; "gift"; "cards"] /\
    relevant v = false.
Proof. eexists. split; [vm_compute; reflexivity|]. repeat split. Qed.

(** The threshold is applied to the unrounded percentage: eight keywords
    of twenty-seven are reported as 30 percent and are not relevant. *)
Example rounded_up_to_the_threshold :
  Math_round (percentage 8 27) = of_Z 30 /\
  geb (percentage 8 27) (of_Z 30) = false.
Proof. split; vm_compute; reflexivity. Qed.



Lemma keyword_matching_rule_witness :
  gift_cards_summary <> "" /\
  cleanName rejecting_engine gift_card_app shop_8548 = Some "gift-card-app" /\
  exists v matched,
    validateContentRelevance default_extractor rejecting_engine
      gift_card_app (Some gift_cards_summary) shop_8548 = Returned v /\
    matchedKeywords v = Some matched /\
    forall k, In k (default_extractor gift_cards_summary) ->
      (In k matched <->
         occurs_in k "gift-card-app" \/
         (4 <= String.length k /\
          exists first4 rest,
            k = first4 ++ rest /\ String.length first4 = 4 /\
            occurs_in first4 "gift-card-app")) /\
      (String.length k < 4 -> (In k matched <-> occurs_in k "gift-card-app")) /\
      (In k (missingKeywords v) <-> ~ In k matched).
Proof.
  split; [discriminate|]. split; [reflexivity|].
  apply keyword_matching_rule; [discriminate | reflexivity].
Defined.

(** C3.  The rounded percentage is not always the integer nearest to
    [100 * matched / total]: with forty keywords of which twenty-three are
    matched the quotient is 57.5, the product [(23 / 40) * 100] computed in
    binary64 is just below it, and the percentage reported is 57, not
    58. *)
Lemma matchPercentage_forty_keywords :
  exists v matched,
    validateContentRelevance extractor_40 rejecting_engine
      twenty_three_of_forty (Some forty_words) "SHOP-1" = Returned v /\
    matchedKeywords v = Some matched /\
    List.length (extractor_40 forty_words) = 40 /\
    List.length matched = 23 /\
    matchPercentage v = Some (of_Z 57) /\
    nearest (100 * 23) 40 = 58%Z /\
    of_Z 57 <> of_Z 58.
Proof.
  eexists. eexists.
  split; [vm_compute; reflexivity|].
  split; [reflexivity|].
  repeat split; try (vm_compute; reflexivity).
  vm_compute. discriminate.
Qed.

Lemma matchPercentage_nearest_witness :
  gift_cards_summary <> "" /\
  cleanName rejecting_engine gift_card_app shop_8548 = Some "gift-card-app" /\
  List.length (default_extractor gift_cards_summary) <= rounding_bound /\
  exists v matched p,
    validateContentRelevance default_extractor rejecting_engine
      gift_card_app (Some gift_cards_summary) shop_8548 = Returned v /\
    matchedKeywords v = Some matched /\
    matchPercentage v = Some (of_Z p) /\
    (0 <= p <= 100)%Z /\
    (default_extractor gift_cards_summary = [] -> p = 100%Z) /\
    (default_extractor gift_cards_summary <> [] ->
       p = nearest (100 * Z.of_nat (List.length matched))
             (Z.of_nat (List.length (default_extractor gift_cards_summary))) /\
       (2 * p * Z.of_nat (List.length (default_extractor gift_cards_summary))
          - Z.of_nat (List.length (default_extractor gift_cards_summary))
        <= 2 * (100 * Z.of_nat (List.length matched))
        < 2 * p * Z.of_nat (List.length (default_extractor gift_cards_summary))
          + Z.of_nat (List.length (default_extractor gift_cards_summary)))%Z).
Proof.
  split; [discriminate|]. split; [reflexivity|].
  split; [apply Nat.leb_le; reflexivity|].
  apply (matchPercentage_nearest _ _ _ _ _ "gift-card-app");
    [discriminate | reflexivity | apply Nat.leb_le; reflexivity].
Defined.

Lemma matched_missing_partition_witness :
  gift_cards_summary <> "" /\
  cleanName rejecting_engine gift_card_app shop_8548 = Some "gift-card-app" /\
  exists v matched,
    validateContentRelevance default_extractor rejecting_engine
      gift_card_app (Some gift_cards_summary) shop_8548 = Returned v /\
    matchedKeywords v = Some matched /\
    allKeywords v = Some (default_extractor gift_cards_summary) /\
    (forall k, In k (default_extractor gift_cards_summary)
               <-> In k matched \/ In k (missingKeywords v)) /\
    (forall k, ~ (In k matched /\ In k (missingKeywords v))) /\
    subsequence matched (default_extractor gift_cards_summary) /\
    subsequence (missingKeywords v) (default_extractor gift_cards_summary) /\
    Permutation (matched ++ missingKeywords v)%list
      (default_extractor gift_cards_summary).
Proof.
  split; [discriminate|]. split; [reflexivity|].
  apply (matched_missing_partition _ _ _ _ _ "gift-card-app");
    [discriminate | reflexivity].
Defined.

(** The run of C5: without a summary the verdict has no percentage and no
    list of matched keywords. *)
Lemma missing_summary_has_no_percentage :
  exists absent empty,
    validateContentRelevance default_extractor rejecting_engine
      gift_card_app None shop_8548 = Returned absent /\
    validateContentRelevance default_extractor rejecting_engine
      gift_card_app (Some "") shop_8548 = Returned empty /\
    matchPercentage absent = None /\ matchedKeywords absent = None /\
    matchPercentage empty = None /\ matchedKeywords empty = None /\
    matchPercentage absent <> Some (of_Z 100) /\
    matchedKeywords absent <> Some [].
Proof.
  eexists. eexists.
  split; [reflexivity|]. split; [reflexivity|].
  repeat split; discriminate.
Qed.

Lemma vacuous_verdicts_witness :
  validateContentRelevance default_extractor rejecting_engine
    gift_card_app None shop_8548
  = Returned {| relevant := true; matchPercentage := None;
                matchedKeywords := None; missingKeywords := [];
                allKeywords := None; message_ := CannotValidate |}
  /\
  validateContentRelevance default_extractor rejecting_engine
    gift_card_app (Some "to the poc") shop_8548
  = Returned {| relevant := true; matchPercentage := Some (of_Z 100);
                matchedKeywords := Some []; missingKeywords := [];
                allKeywords := Some [];
                message_ := ContentRelevance (of_Z 100) 0 0 |}.
Proof.
  split.
  - apply (proj1 (vacuous_verdicts default_extractor rejecting_engine
                    gift_card_app shop_8548)).
    now left.
  - apply (proj2 (vacuous_verdicts default_extractor rejecting_engine
                    gift_card_app shop_8548) "to the poc" "gift-card-app").
    + discriminate.
    + reflexivity.
    + reflexivity.
Defined.

Lemma gift_card_app_scenario_witness :
  gift_cards_summary <> "" /\
  default_extractor gift_cards_summary
    = ["create"; "app"; "restrict"; "gift"; "cards"] /\
  exists v,
    validateContentRelevance default_extractor rejecting_engine
      "feature/SHOP-8548-gift-card-app" (Some gift_cards_summary) "SHOP-8548"
      = Returned v /\
    matchedKeywords v = Some ["app"; "gift"; "cards"] /\
    missingKeywords v = ["create"; "restrict"] /\
    matchPercentage v = Some (of_Z 60) /\
    cleanName rejecting_engine "feature/SHOP-8548-gift-card-app" "SHOP-8548"
      = Some "gift-card-app" /\
    includes "gift-card-app" "cards" = false /\
    includes "gift-card-app" (substring 0 4 "cards") = true.
Proof.
  split; [discriminate|]. split; [reflexivity|].
  apply gift_card_app_scenario; [discriminate | reflexivity].
Defined.

End Examples.

Section ValidatorExamples.
Import SimpleValidator.

Example branch_valid :
  validateBranchName defaultCONFIG "feature/SHOP-123-add-login"
  = {| valid := true; message_ := NameIsValid branch;
       ticketId_ := Some "SHOP-123"; projectKey := Some "SHOP";
       skipped := false; suggestion := None |}.
Proof. reflexivity. Qed.

Example branch_with_spaces :
  validateBranchName defaultCONFIG "bugfix/PROJ-7-fix  the login"
  = {| valid := false; message_ := NoSpaces branch;
       ticketId_ := None; projectKey := None; skipped := false;
       suggestion := Some "bugfix/PROJ-7-fix-the-login" |}.
Proof. reflexivity. Qed.

Example commit_uppercase :
  validateCommitMessage defaultCONFIG "TASK-42-Fix-login"
  = {| valid := false; message_ := MustBeLowercase commit;
       ticketId_ := None; projectKey := None; skipped := false;
       suggestion := Some "TASK-42-fix-login" |}.
Proof. reflexivity. Qed.

Example commit_unknown_key :
  validateCommitMessage defaultCONFIG "ABC-42-fix-login"
  = {| valid := false;
       message_ := InvalidProjectKey "ABC" ["SHOP"; "PROJ"; "TASK"];
       ticketId_ := None; projectKey := None; skipped := false;
       suggestion := None |}.
Proof. reflexivity. Qed.

Example both_skipped :
  validateBoth {| projectKeys := ["SHOP"]; skipValidation := true |}
    "anything" "at all"
  = {| bothValid := true; bothMessage := BothValid;
       branchResult := skippedResult branch;
       commitResult := skippedResult commit |}.
Proof. reflexivity. Qed.

Lemma validateBoth_ticket_ids_witness :
  bothValid (validateBoth defaultCONFIG
               "feature/SHOP-123-add-login" "SHOP-124-add-login") = false /\
  exists b c,
    ticketId_ (validateBranchName defaultCONFIG "feature/SHOP-123-add-login") = Some b /\
    ticketId_ (validateCommitMessage defaultCONFIG "SHOP-124-add-login") = Some c /\
    bothMessage (validateBoth defaultCONFIG
                   "feature/SHOP-123-add-login" "SHOP-124-add-login")
      = TicketIdMismatch b c.
Proof.
  destruct (validateBoth_ticket_ids defaultCONFIG
              "feature/SHOP-123-add-login" "SHOP-124-add-login")
    as (_ & _ & _ & H).
  apply H; [reflexivity | reflexivity | discriminate].
Defined.

End ValidatorExamples.

(** * The simple validator, the first validator and the ticket cache *)

Section SpanFacts.
Import JSString.

Lemma span_app (p : ascii -> bool) (a b : string) :
  all_units p a = true ->
  (forall c b', b = String c b' -> p c = false) ->
  span p (a ++ b) = (a, b).
Proof.
  intros Ha Hb. induction a as [|c a IH]; simpl.
  - destruct b as [|c b']; [reflexivity|].
    simpl. now rewrite (Hb c b' eq_refl).
  - unfold all_units in Ha. simpl in Ha. apply andb_true_iff in Ha as [Hc Ha].
    rewrite Hc, (IH Ha). reflexivity.
Qed.

Lemma span_spec (p : ascii -> bool) (s a b : string) :
  span p s = (a, b) ->
  s = a ++ b /\ all_units p a = true /\
  (forall c b', b = String c b' -> p c = false).
Proof.
  revert a b. induction s as [|c s IH]; intros a b; simpl.
  - intros H. injection H as <- <-. repeat split. discriminate.
  - destruct (p c) eqn:E.
    + destruct (span p s) as [a' b'] eqn:S.
      intros H. injection H as <- <-.
      destruct (IH a' b' eq_refl) as (-> & Ha & Hb).
      repeat split; [|assumption].
      unfold all_units in *. simpl. now rewrite E.
    + intros H. injection H as <- <-. repeat split.
      intros c' b' H. injection H as <- _. exact E.
Qed.

Lemma all_units_forall (p : ascii -> bool) (s : string) :
  all_units p s = true <-> forall c, In c (list_ascii_of_string s) -> p c = true.
Proof. unfold all_units. apply forallb_forall. Qed.

Lemma all_units_app (p : ascii -> bool) (a b : string) :
  all_units p (a ++ b) = all_units p a && all_units p b.
Proof.
  unfold all_units. induction a as [|c a IH]; simpl.
  - reflexivity.
  - now rewrite IH, andb_assoc.
Qed.

Lemma includes_unit (d : string) (c : ascii) :
  includes d (String c "") = true <-> In c (list_ascii_of_string d).
Proof.
  induction d as [|x d IH]; simpl.
  - split; [discriminate | tauto].
  - rewrite orb_true_iff, IH, andb_true_r, Ascii.eqb_eq. intuition congruence.
Qed.

Lemma lower_fixed (d : string) :
  String.eqb d (toLowerCase d) = true <->
  forall c, In c (list_ascii_of_string d) -> toLowerCase_unit c = c.
Proof.
  rewrite String.eqb_eq. induction d as [|x d IH]; simpl.
  - split; [tauto | reflexivity].
  - split.
    + intros H. injection H as Hx Hd. intros c [<- | Hc]; [now symmetry|].
      now apply IH.
    + intros H. rewrite (H x (or_introl eq_refl)).
      f_equal. apply IH. intros c Hc. apply H. now right.
Qed.

Lemma drop_app (a b : string) : drop (String.length a) (a ++ b) = b.
Proof. induction a; simpl; [now destruct b | assumption]. Qed.

End SpanFacts.

Section PatternFacts.
Import JSString SimpleValidator.

Lemma dash_not_upper : is_upper "-" = false. Proof. reflexivity. Qed.
Lemma dash_not_digit : is_digit "-" = false. Proof. reflexivity. Qed.

(** What [([A-Z]+)-(\d+)] matches at the start of a string. *)
Lemma ticketAt_iff (s key num rest : string) :
  ticketAt s = Some (key, num, rest) <->
  s = key ++ "-" ++ num ++ rest /\
  run_of is_upper key /\ run_of is_digit num /\
  (forall c r, rest = String c r -> is_digit c = false).
Proof.
  unfold ticketAt, run_of. split.
  - destruct (span is_upper s) as [k r1] eqn:S1.
    apply span_spec in S1 as (-> & Hk & _).
    destruct k as [|c k]; [discriminate|].
    destruct r1 as [|d r1]; [discriminate|].
    destruct d as [[] [] [] [] [] [] [] []]; try discriminate.
    destruct (span is_digit r1) as [n r3] eqn:S2.
    apply span_spec in S2 as (-> & Hn & Hr).
    destruct n as [|e n]; [discriminate|].
    intros H. injection H as <- <- <-.
    repeat split; try assumption; discriminate.
  - intros (-> & [Hk Uk] & [Hn Un] & Hr).
    rewrite (span_app is_upper key ("-" ++ num ++ rest) Uk).
    2:{ intros c b' H. injection H as <- _. reflexivity. }
    destruct key as [|c k]; [congruence|].
    simpl. rewrite (span_app is_digit num rest Un Hr).
    destruct num; [congruence | reflexivity].
Qed.

Lemma match_ticketId_here (s key num rest : string) :
  ticketAt s = Some (key, num, rest) ->
  match_ticketId s = Some [key ++ "-" ++ num; key; num].
Proof. intros H. destruct s; cbn [match_ticketId]; now rewrite H. Qed.

Lemma match_ticketId_skip (a s : string) :
  (forall c, In c (list_ascii_of_string a) -> is_upper c = false) ->
  match_ticketId (a ++ s) = match_ticketId s.
Proof.
  induction a as [|c a IH]; intros H; [reflexivity|].
  change (String c a ++ s) with (String c (a ++ s)). cbn [match_ticketId].
  assert (T : ticketAt (String c (a ++ s)) = None).
  { unfold ticketAt. simpl. now rewrite (H c (or_introl eq_refl)). }
  rewrite T. apply IH. intros x Hx. apply H. now right.
Qed.

(** What the commit pattern matches. *)
Lemma match_commit_iff (s : string) (g : list string) :
  match_commit s = Some g <->
  exists key num desc,
    g = [s; key; num; desc] /\
    s = key ++ "-" ++ num ++ "-" ++ desc /\
    run_of is_upper key /\ run_of is_digit num /\
    desc <> "" /\ one_line desc = true.
Proof.
  unfold match_commit. split.
  - destruct (ticketAt s) as [[[key num] rest]|] eqn:T; [|discriminate].
    apply ticketAt_iff in T as (E & Hk & Hn & _).
    destruct rest as [|d desc]; [discriminate|].
    destruct d as [[] [] [] [] [] [] [] []]; try discriminate.
    destruct desc as [|c desc]; [discriminate|].
    cbn [is_empty negb andb].
    destruct (all_units _ (String c desc)) eqn:L; [|discriminate].
    intros H. injection H as <-.
    exists key, num, (String c desc).
    split; [reflexivity|]. split; [exact E|]. split; [exact Hk|].
    split; [exact Hn|]. split; [discriminate | exact L].
  - intros (key & num & desc & -> & E & Hk & Hn & Hd & L).
    assert (T : ticketAt s = Some (key, num, "-" ++ desc)).
    { apply ticketAt_iff.
      split; [exact E|]. split; [exact Hk|]. split; [exact Hn|].
      intros c r H. injection H as <- _. reflexivity. }
    rewrite T. simpl.
    destruct desc; [congruence|]. cbn [is_empty negb andb].
    unfold one_line in L. now rewrite L.
Qed.

(** What the branch pattern matches. *)
Lemma match_branch_iff (s : string) (g : list string) :
  match_branch s = Some g <->
  exists p key num desc,
    In p categoryPrefixes /\
    g = [s; p; key; num; desc] /\
    s = p ++ "/" ++ key ++ "-" ++ num ++ "-" ++ desc /\
    run_of is_upper key /\ run_of is_digit num /\
    desc <> "" /\ one_line desc = true.
Proof.
  unfold match_branch. split.
  - destruct (find _ categoryPrefixes) as [p|] eqn:F; [|discriminate].
    apply find_some in F as [Hin Hs].
    apply startsWith_iff in Hs as [rest ->].
    replace (drop (S (String.length p)) ((p ++ "/") ++ rest)) with rest.
    2:{ rewrite <- (drop_app (p ++ "/") rest) at 1. f_equal.
        rewrite length_append. simpl. lia. }
    destruct (match_commit rest) as [g'|] eqn:M; [|discriminate].
    apply match_commit_iff in M as (key & num & desc & -> & E & Hk & Hn & Hd & L).
    intros H. injection H as <-.
    exists p, key, num, desc.
    split; [exact Hin|]. split; [reflexivity|].
    split; [|tauto].
    rewrite E. clear. induction p; simpl; [reflexivity | now f_equal].
  - intros (p & key & num & desc & Hin & -> & -> & Hk & Hn & Hd & L).
    assert (M : match_commit (key ++ "-" ++ num ++ "-" ++ desc)
                = Some [key ++ "-" ++ num ++ "-" ++ desc; key; num; desc]).
    { apply match_commit_iff. exists key, num, desc. tauto. }
    simpl in Hin.
    destruct Hin as [<-|[<-|[<-|[<-|[<-|[]]]]]]; simpl; simpl in M; now rewrite M.
Qed.

Lemma prefix_not_upper (p : string) :
  In p categoryPrefixes ->
  forall c, In c (list_ascii_of_string (p ++ "/")) -> is_upper c = false.
Proof.
  intros Hin c Hc. simpl in Hin.
  destruct Hin as [<-|[<-|[<-|[<-|[<-|[]]]]]]; simpl in Hc;
    repeat (destruct Hc as [<-|Hc]; [reflexivity|]); destruct Hc.
Qed.

Lemma upper_not_dash (key : string) :
  all_units is_upper key = true ->
  all_units (fun c => negb (Ascii.eqb c "-")) key = true.
Proof.
  rewrite !all_units_forall. intros H c Hc. specialize (H c Hc).
  destruct c as [[] [] [] [] [] [] [] []]; try discriminate H; reflexivity.
Qed.

Lemma split_dash_0_ticket (key num : string) :
  all_units is_upper key = true ->
  split_dash_0 (key ++ "-" ++ num) = key.
Proof.
  intros U. unfold split_dash_0.
  rewrite (span_app _ key ("-" ++ num) (upper_not_dash key U)); [reflexivity|].
  intros c b' H. injection H as <- _. reflexivity.
Qed.

Lemma extractTicketId_commit (key num desc : string) :
  run_of is_upper key -> run_of is_digit num ->
  extractTicketId (key ++ "-" ++ num ++ "-" ++ desc) = Some (key ++ "-" ++ num).
Proof.
  intros Hk Hn. unfold extractTicketId.
  rewrite (match_ticketId_here _ key num ("-" ++ desc)); [reflexivity|].
  apply ticketAt_iff.
  split; [reflexivity|]. split; [exact Hk|]. split; [exact Hn|].
  intros c r H. injection H as <- _. reflexivity.
Qed.

Lemma extractTicketId_branch (p key num desc : string) :
  In p categoryPrefixes ->
  run_of is_upper key -> run_of is_digit num ->
  extractTicketId (p ++ "/" ++ key ++ "-" ++ num ++ "-" ++ desc)
  = Some (key ++ "-" ++ num).
Proof.
  intros Hp Hk Hn.
  replace (p ++ "/" ++ key ++ "-" ++ num ++ "-" ++ desc)
    with ((p ++ "/") ++ key ++ "-" ++ num ++ "-" ++ desc).
  2:{ clear. induction p; simpl; [reflexivity | now f_equal]. }
  unfold extractTicketId.
  rewrite (match_ticketId_skip _ _ (prefix_not_upper p Hp)).
  now apply extractTicketId_commit.
Qed.

End PatternFacts.

Section DescriptionFacts.
Import JSString SimpleValidator.

Lemma one_line_forall (d : string) :
  one_line d = true <->
  forall c, In c (list_ascii_of_string d) -> line_terminator c = false.
Proof.
  unfold one_line. rewrite all_units_forall. split; intros H c Hc.
  - apply negb_true_iff. now apply H.
  - apply negb_true_iff. now apply H.
Qed.

Lemma not_includes_unit (d : string) (x : ascii) :
  includes d (String x "") = false <->
  forall c, In c (list_ascii_of_string d) -> c <> x.
Proof.
  split.
  - intros H c Hc ->. apply includes_unit in Hc. congruence.
  - intros H. destruct (includes d (String x "")) eqn:E; [|reflexivity].
    apply includes_unit in E. now apply H in E.
Qed.

(** The three tests pass exactly on the accepted descriptions. *)
Lemma checkDescription_valid (p : pattern) (head d : string) (fr : result) :
  d <> "" -> one_line d = true ->
  (valid (checkDescription p head d fr) = true <-> accepted_description d) /\
  (valid (checkDescription p head d fr) = true ->
   checkDescription p head d fr = validResult p fr).
Proof.
  intros Hd Hl. unfold checkDescription, accepted_description.
  pose proof (proj1 (one_line_forall d) Hl) as L.
  destruct (includes d " ") eqn:S.
  { split; [|discriminate]. split; [discriminate|].
    intros [_ H]. apply includes_unit in S. apply H in S. tauto. }
  destruct (includes d "_") eqn:U.
  { split; [|discriminate]. split; [discriminate|].
    intros [_ H]. apply includes_unit in U. apply H in U. tauto. }
  destruct (String.eqb d (toLowerCase d)) eqn:E; cbn [negb].
  - split; [|reflexivity]. split; [|reflexivity]. intros _.
    split; [assumption|]. intros c Hc.
    split; [now apply L|].
    split; [now apply (proj1 (not_includes_unit d " ") S)|].
    split; [now apply (proj1 (not_includes_unit d "_") U)|].
    now apply (proj1 (lower_fixed d) E).
  - split; [|discriminate]. split; [discriminate|].
    intros [_ H].
    assert (String.eqb d (toLowerCase d) = true); [|congruence].
    apply lower_fixed. intros c Hc. now apply H.
Qed.

Lemma checkDescription_accepts (p : pattern) (head d : string) (fr : result) :
  d <> "" -> one_line d = true ->
  valid (checkDescription p head d fr) = true -> accepted_description d.
Proof.
  intros Hd Hl. now apply (proj1 (checkDescription_valid p head d fr Hd Hl)).
Qed.

Lemma replace_spaces_units (b : bool) (d : string) (c : ascii) :
  In c (list_ascii_of_string (replace_spaces b d)) ->
  c = "-"%char \/ (In c (list_ascii_of_string d) /\ white_space c = false).
Proof.
  revert b. induction d as [|x d IH]; intros b; simpl; [tauto|].
  destruct (white_space x) eqn:W.
  - destruct b; simpl.
    + intros H. apply IH in H. tauto.
    + intros [<- | H]; [now left|]. apply IH in H. tauto.
  - simpl. intros [<- | H]; [right; tauto|]. apply IH in H. tauto.
Qed.

Lemma replace_spaces_not_empty (d : string) :
  d <> "" -> replace_spaces false d <> "".
Proof.
  destruct d as [|x d]; [congruence|]. intros _. simpl.
  destruct (white_space x); discriminate.
Qed.

Lemma replace_underscores_units (d : string) (c : ascii) :
  In c (list_ascii_of_string (replace_underscores d)) ->
  c = "-"%char \/ (In c (list_ascii_of_string d) /\ c <> "_"%char).
Proof.
  induction d as [|x d IH]; simpl; [tauto|].
  intros [<- | H].
  - destruct (Ascii.eqb x "_") eqn:E; [now left|].
    right. split; [now left|]. now apply Ascii.eqb_neq.
  - apply IH in H. tauto.
Qed.

Lemma replace_underscores_not_empty (d : string) :
  d <> "" -> replace_underscores d <> "".
Proof. destruct d; [congruence | discriminate]. Qed.

Lemma toLowerCase_units (d : string) (c : ascii) :
  In c (list_ascii_of_string (toLowerCase d)) ->
  exists c0, In c0 (list_ascii_of_string d) /\ c = toLowerCase_unit c0.
Proof.
  induction d as [|x d IH]; simpl; [tauto|].
  intros [<- | H].
  - exists x. tauto.
  - apply IH in H as (c0 & H0 & ->). exists c0. tauto.
Qed.

Lemma toLowerCase_not_empty (d : string) : d <> "" -> toLowerCase d <> "".
Proof. destruct d; [congruence | discriminate]. Qed.

(** Lower-casing a unit makes no space, no underscore and no line
    terminator, and takes none away. *)
Lemma toLowerCase_unit_keeps (c : ascii) :
  (toLowerCase_unit c = " "%char -> c = " "%char) /\
  (toLowerCase_unit c = "_"%char -> c = "_"%char) /\
  line_terminator (toLowerCase_unit c) = line_terminator c.
Proof.
  destruct c as [[] [] [] [] [] [] [] []];
    (split; [|split]); try reflexivity; intros H; try discriminate H.
Qed.

Lemma white_space_space : white_space " " = true.
Proof. reflexivity. Qed.

Lemma next_description_shape (d : string) :
  d <> "" -> one_line d = true ->
  next_description d <> "" /\ one_line (next_description d) = true.
Proof.
  intros Hd Hl. pose proof (proj1 (one_line_forall d) Hl) as L.
  unfold next_description.
  destruct (includes d " ").
  { split; [now apply replace_spaces_not_empty|].
    apply one_line_forall. intros c Hc.
    apply replace_spaces_units in Hc as [-> | [Hc _]]; [reflexivity | now apply L]. }
  destruct (includes d "_").
  { split; [now apply replace_underscores_not_empty|].
    apply one_line_forall. intros c Hc.
    apply replace_underscores_units in Hc as [-> | [Hc _]]; [reflexivity | now apply L]. }
  destruct (negb _).
  { split; [now apply toLowerCase_not_empty|].
    apply one_line_forall. intros c Hc.
    apply toLowerCase_units in Hc as (c0 & Hc0 & ->).
    destruct (toLowerCase_unit_keeps c0) as (_ & _ & ->). now apply L. }
  now split.
Qed.

Lemma next_no_space (d : string) : no_unit " " (next_description d).
Proof.
  unfold next_description, no_unit.
  destruct (includes d " ") eqn:S.
  { intros c Hc ->. apply replace_spaces_units in Hc as [H | [_ H]]; discriminate. }
  pose proof (proj1 (not_includes_unit d " ") S) as N.
  destruct (includes d "_").
  { intros c Hc. apply replace_underscores_units in Hc as [-> | [Hc _]];
      [discriminate | now apply N]. }
  destruct (negb _); [|assumption].
  intros c Hc ->. apply toLowerCase_units in Hc as (c0 & Hc0 & E).
  symmetry in E. apply (proj1 (toLowerCase_unit_keeps c0)) in E.
  subst. now apply (N " "%char).
Qed.

Lemma next_no_underscore (d : string) :
  no_unit " " d -> no_unit "_" (next_description d).
Proof.
  intros N. unfold next_description, no_unit.
  rewrite (proj2 (not_includes_unit d " ") N).
  destruct (includes d "_") eqn:U.
  { intros c Hc ->. apply replace_underscores_units in Hc as [H | [_ H]];
      [discriminate | congruence]. }
  pose proof (proj1 (not_includes_unit d "_") U) as NU.
  destruct (negb _); [|assumption].
  intros c Hc ->. apply toLowerCase_units in Hc as (c0 & Hc0 & E).
  symmetry in E. apply (proj1 (proj2 (toLowerCase_unit_keeps c0))) in E.
  subst. now apply (NU "_"%char).
Qed.

Lemma next_accepted (d : string) :
  d <> "" -> one_line d = true ->
  no_unit " " d -> no_unit "_" d ->
  accepted_description (next_description d).
Proof.
  intros Hd Hl N NU.
  pose proof (proj1 (one_line_forall d) Hl) as L.
  unfold next_description.
  rewrite (proj2 (not_includes_unit d " ") N), (proj2 (not_includes_unit d "_") NU).
  destruct (String.eqb d (toLowerCase d)) eqn:E; cbn [negb].
  - split; [assumption|]. intros c Hc.
    repeat split; [now apply L | now apply N | now apply NU |].
    now apply (proj1 (lower_fixed d) E).
  - split; [now apply toLowerCase_not_empty|]. intros c Hc.
    apply toLowerCase_units in Hc as (c0 & Hc0 & ->).
    destruct (toLowerCase_unit_keeps c0) as (K1 & K2 & K3).
    repeat split.
    + rewrite K3. now apply L.
    + intros H. apply K1 in H. subst. now apply (N " "%char).
    + intros H. apply K2 in H. subst. now apply (NU "_"%char).
    + apply toLowerCase_unit_idempotent.
Qed.

(** Three rounds of suggestions reach an accepted description. *)
Lemma three_rounds (d : string) :
  d <> "" -> one_line d = true ->
  accepted_description (next_description (next_description (next_description d))).
Proof.
  intros Hd Hl.
  destruct (next_description_shape d Hd Hl) as [Hd1 Hl1].
  destruct (next_description_shape _ Hd1 Hl1) as [Hd2 Hl2].
  apply next_accepted; try assumption.
  - apply next_no_space.
  - apply next_no_underscore, next_no_space.
Qed.

(** The suggestion of a failed test is the head and the next
    description. *)
Lemma checkDescription_suggestion (p : pattern) (head d : string) (fr : result) :
  suggestion (checkDescription p head d fr)
  = if valid (checkDescription p head d fr) then None
    else Some (head ++ next_description d).
Proof.
  unfold checkDescription, next_description.
  destruct (includes d " "); [reflexivity|].
  destruct (includes d "_"); [reflexivity|].
  destruct (negb _); reflexivity.
Qed.

Lemma next_description_accepted (d : string) :
  accepted_description d -> next_description d = d.
Proof.
  intros [_ H]. unfold next_description.
  rewrite (proj2 (not_includes_unit d " ")), (proj2 (not_includes_unit d "_")).
  - assert (E : String.eqb d (toLowerCase d) = true).
    { apply lower_fixed. intros c Hc. now apply H. }
    now rewrite E.
  - intros c Hc. now apply H.
  - intros c Hc. now apply H.
Qed.

End DescriptionFacts.

Section ShapeFacts.
Import JSString SimpleValidator.

Variable CONFIG : config.

Lemma validateFormat_suggestion (name type : string) :
  suggestion (validateFormat CONFIG name type) = None.
Proof.
  unfold validateFormat.
  destruct (PATTERNS type); [|reflexivity].
  destruct (match_ name _); [|reflexivity].
  destruct (extractTicketId name); [|reflexivity].
  destruct (existsb _ _); reflexivity.
Qed.

Lemma validateFormat_branch (p key num desc : string) :
  In p categoryPrefixes ->
  run_of is_upper key -> run_of is_digit num ->
  desc <> "" -> one_line desc = true ->
  validateFormat CONFIG (p ++ "/" ++ key ++ "-" ++ num ++ "-" ++ desc) "branch"
  = if existsb (String.eqb key) (projectKeys CONFIG)
    then formatResult "branch" key num
    else fail (InvalidProjectKey key (projectKeys CONFIG)) None.
Proof.
  intros Hp Hk Hn Hd Hl.
  set (name := p ++ "/" ++ key ++ "-" ++ num ++ "-" ++ desc).
  assert (M : match_branch name = Some [name; p; key; num; desc]).
  { apply match_branch_iff. exists p, key, num, desc. tauto. }
  unfold validateFormat. change (PATTERNS "branch") with (Some branch).
  cbn [match_]. rewrite M.
  unfold name. rewrite (extractTicketId_branch p key num desc Hp Hk Hn).
  now rewrite (split_dash_0_ticket key num (proj2 Hk)).
Qed.

Lemma validateFormat_commit (key num desc : string) :
  run_of is_upper key -> run_of is_digit num ->
  desc <> "" -> one_line desc = true ->
  validateFormat CONFIG (key ++ "-" ++ num ++ "-" ++ desc) "commit"
  = if existsb (String.eqb key) (projectKeys CONFIG)
    then formatResult "commit" key num
    else fail (InvalidProjectKey key (projectKeys CONFIG)) None.
Proof.
  intros Hk Hn Hd Hl.
  set (name := key ++ "-" ++ num ++ "-" ++ desc).
  assert (M : match_commit name = Some [name; key; num; desc]).
  { apply match_commit_iff. exists key, num, desc. tauto. }
  unfold validateFormat. change (PATTERNS "commit") with (Some commit).
  cbn [match_]. rewrite M.
  unfold name. rewrite (extractTicketId_commit key num desc Hk Hn).
  now rewrite (split_dash_0_ticket key num (proj2 Hk)).
Qed.

Lemma validateBranchName_shaped (p key num desc : string) :
  skipValidation CONFIG = false ->
  In p categoryPrefixes ->
  run_of is_upper key -> run_of is_digit num ->
  desc <> "" -> one_line desc = true ->
  validateBranchName CONFIG (p ++ "/" ++ key ++ "-" ++ num ++ "-" ++ desc)
  = if existsb (String.eqb key) (projectKeys CONFIG)
    then checkDescription branch (p ++ "/" ++ key ++ "-" ++ num ++ "-") desc
           (formatResult "branch" key num)
    else fail (InvalidProjectKey key (projectKeys CONFIG)) None.
Proof.
  intros Hs Hp Hk Hn Hd Hl.
  unfold validateBranchName. rewrite Hs. cbv zeta.
  rewrite (validateFormat_branch p key num desc Hp Hk Hn Hd Hl).
  assert (M : match_branch (p ++ "/" ++ key ++ "-" ++ num ++ "-" ++ desc)
              = Some [p ++ "/" ++ key ++ "-" ++ num ++ "-" ++ desc; p; key; num; desc]).
  { apply match_branch_iff. exists p, key, num, desc. tauto. }
  cbn [match_]. rewrite M.
  destruct (existsb (String.eqb key) (projectKeys CONFIG)); cbn [valid negb fail formatResult].
  - destruct desc as [|c d]; [congruence|]. reflexivity.
  - reflexivity.
Qed.

Lemma validateCommitMessage_shaped (key num desc : string) :
  skipValidation CONFIG = false ->
  run_of is_upper key -> run_of is_digit num ->
  desc <> "" -> one_line desc = true ->
  validateCommitMessage CONFIG (key ++ "-" ++ num ++ "-" ++ desc)
  = if existsb (String.eqb key) (projectKeys CONFIG)
    then checkDescription commit (key ++ "-" ++ num ++ "-") desc
           (formatResult "commit" key num)
    else fail (InvalidProjectKey key (projectKeys CONFIG)) None.
Proof.
  intros Hs Hk Hn Hd Hl.
  unfold validateCommitMessage. rewrite Hs. cbv zeta.
  rewrite (validateFormat_commit key num desc Hk Hn Hd Hl).
  assert (M : match_commit (key ++ "-" ++ num ++ "-" ++ desc)
              = Some [key ++ "-" ++ num ++ "-" ++ desc; key; num; desc]).
  { apply match_commit_iff. exists key, num, desc. tauto. }
  cbn [match_]. rewrite M.
  destruct (existsb (String.eqb key) (projectKeys CONFIG)); cbn [valid negb fail formatResult].
  - destruct desc as [|c d]; [congruence|]. reflexivity.
  - reflexivity.
Qed.

Lemma validateBranchName_unshaped (name : string) :
  skipValidation CONFIG = false ->
  match_branch name = None ->
  validateBranchName CONFIG name
  = fail (InvalidFormat "branch" (getExpectedFormat CONFIG "branch")) None.
Proof.
  intros Hs M. unfold validateBranchName. rewrite Hs. cbv zeta.
  unfold validateFormat. change (PATTERNS "branch") with (Some branch).
  cbn [match_]. rewrite M. reflexivity.
Qed.

Lemma validateCommitMessage_unshaped (name : string) :
  skipValidation CONFIG = false ->
  match_commit name = None ->
  validateCommitMessage CONFIG name
  = fail (InvalidFormat "commit" (getExpectedFormat CONFIG "commit")) None.
Proof.
  intros Hs M. unfold validateCommitMessage. rewrite Hs. cbv zeta.
  unfold validateFormat. change (PATTERNS "commit") with (Some commit).
  cbn [match_]. rewrite M. reflexivity.
Qed.


Lemma append_assoc (a b c : string) : (a ++ b) ++ c = a ++ b ++ c.
Proof. induction a; simpl; [reflexivity | now f_equal]. Qed.

Lemma branch_head_assoc (p key num d : string) :
  (p ++ "/" ++ key ++ "-" ++ num ++ "-") ++ d
  = p ++ "/" ++ key ++ "-" ++ num ++ "-" ++ d.
Proof. now rewrite !append_assoc. Qed.

Lemma commit_head_assoc (key num d : string) :
  (key ++ "-" ++ num ++ "-") ++ d = key ++ "-" ++ num ++ "-" ++ d.
Proof. now rewrite !append_assoc. Qed.

Lemma accepted_one_line (d : string) :
  accepted_description d -> d <> "" /\ one_line d = true.
Proof.
  intros [Hd H]. split; [assumption|].
  apply one_line_forall. intros c Hc. now apply H.
Qed.

Lemma shaped_branch_valid (p key num desc : string) :
  skipValidation CONFIG = false ->
  In p categoryPrefixes ->
  run_of is_upper key -> In key (projectKeys CONFIG) ->
  run_of is_digit num -> accepted_description desc ->
  validateBranchName CONFIG (p ++ "/" ++ key ++ "-" ++ num ++ "-" ++ desc)
  = validName branch key num.
Proof.
  intros Hs Hp Hk Hin Hn Ha.
  destruct (accepted_one_line desc Ha) as [Hd Hl].
  rewrite (validateBranchName_shaped p key num desc Hs Hp Hk Hn Hd Hl).
  rewrite (proj2 (member_iff key (projectKeys CONFIG)) Hin).
  destruct (checkDescription_valid branch (p ++ "/" ++ key ++ "-" ++ num ++ "-")
              desc (formatResult "branch" key num) Hd Hl) as [V R].
  rewrite (R (proj2 V Ha)). reflexivity.
Qed.

Lemma shaped_commit_valid (key num desc : string) :
  skipValidation CONFIG = false ->
  run_of is_upper key -> In key (projectKeys CONFIG) ->
  run_of is_digit num -> accepted_description desc ->
  validateCommitMessage CONFIG (key ++ "-" ++ num ++ "-" ++ desc)
  = validName commit key num.
Proof.
  intros Hs Hk Hin Hn Ha.
  destruct (accepted_one_line desc Ha) as [Hd Hl].
  rewrite (validateCommitMessage_shaped key num desc Hs Hk Hn Hd Hl).
  rewrite (proj2 (member_iff key (projectKeys CONFIG)) Hin).
  destruct (checkDescription_valid commit (key ++ "-" ++ num ++ "-")
              desc (formatResult "commit" key num) Hd Hl) as [V R].
  rewrite (R (proj2 V Ha)). reflexivity.
Qed.

(** X1.  When validation is not skipped, a branch name is valid exactly
    when it is a category prefix, a slash, a key of upper-case letters
    that is one of the configured keys, a dash, a number, a dash and an
    accepted description; and a name that is read so is answered with the
    object of a valid name, which carries the key and the ticket ID made
    of the key and the number. *)
Theorem branch_name_valid_iff (name : string) :
  skipValidation CONFIG = false ->
  (valid (validateBranchName CONFIG name) = true <->
   exists p key num desc,
     name = p ++ "/" ++ key ++ "-" ++ num ++ "-" ++ desc /\
     In p categoryPrefixes /\
     run_of is_upper key /\ In key (projectKeys CONFIG) /\
     run_of is_digit num /\ accepted_description desc) /\
  (forall p key num desc,
     name = p ++ "/" ++ key ++ "-" ++ num ++ "-" ++ desc ->
     In p categoryPrefixes ->
     run_of is_upper key -> In key (projectKeys CONFIG) ->
     run_of is_digit num -> accepted_description desc ->
     validateBranchName CONFIG name = validName branch key num).
Proof.
  intros Hs. split; [split|].
  - intros V. destruct (match_branch name) as [g|] eqn:M.
    + apply match_branch_iff in M
        as (p & key & num & desc & Hp & _ & -> & Hk & Hn & Hd & Hl).
      rewrite (validateBranchName_shaped p key num desc Hs Hp Hk Hn Hd Hl) in V.
      destruct (existsb (String.eqb key) (projectKeys CONFIG)) eqn:K;
        [|discriminate V].
      apply member_iff in K.
      apply (checkDescription_accepts branch _ desc _ Hd Hl) in V.
      exists p, key, num, desc. split; [reflexivity|].
      split; [assumption|]. split; [assumption|]. split; [assumption|].
      split; assumption.
    + rewrite (validateBranchName_unshaped name Hs M) in V. discriminate V.
  - intros (p & key & num & desc & -> & Hp & Hk & K & Hn & Ha).
    now rewrite (shaped_branch_valid p key num desc Hs Hp Hk K Hn Ha).
  - intros p key num desc -> Hp Hk K Hn Ha.
    now apply shaped_branch_valid.
Qed.

(** X2.  When validation is not skipped, a commit message is valid
    exactly when it is a key of upper-case letters that is one of the
    configured keys, a dash, a number, a dash and an accepted description;
    and a message that is read so is answered with the object of a valid
    name, which carries the key and the ticket ID made of the key and the
    number. *)
Theorem commit_message_valid_iff (name : string) :
  skipValidation CONFIG = false ->
  (valid (validateCommitMessage CONFIG name) = true <->
   exists key num desc,
     name = key ++ "-" ++ num ++ "-" ++ desc /\
     run_of is_upper key /\ In key (projectKeys CONFIG) /\
     run_of is_digit num /\ accepted_description desc) /\
  (forall key num desc,
     name = key ++ "-" ++ num ++ "-" ++ desc ->
     run_of is_upper key -> In key (projectKeys CONFIG) ->
     run_of is_digit num -> accepted_description desc ->
     validateCommitMessage CONFIG name = validName commit key num).
Proof.
  intros Hs. split; [split|].
  - intros V. destruct (match_commit name) as [g|] eqn:M.
    + apply match_commit_iff in M
        as (key & num & desc & _ & -> & Hk & Hn & Hd & Hl).
      rewrite (validateCommitMessage_shaped key num desc Hs Hk Hn Hd Hl) in V.
      destruct (existsb (String.eqb key) (projectKeys CONFIG)) eqn:K;
        [|discriminate V].
      apply member_iff in K.
      apply (checkDescription_accepts commit _ desc _ Hd Hl) in V.
      exists key, num, desc. split; [reflexivity|].
      split; [assumption|]. split; [assumption|]. split; assumption.
    + rewrite (validateCommitMessage_unshaped name Hs M) in V. discriminate V.
  - intros (key & num & desc & -> & Hk & K & Hn & Ha).
    now rewrite (shaped_commit_valid key num desc Hs Hk K Hn Ha).
  - intros key num desc -> Hk K Hn Ha.
    now apply shaped_commit_valid.
Qed.

Lemma follow_branch_shaped (p key num d : string) :
  skipValidation CONFIG = false ->
  In p categoryPrefixes ->
  run_of is_upper key -> In key (projectKeys CONFIG) ->
  run_of is_digit num -> d <> "" -> one_line d = true ->
  follow_branch CONFIG (p ++ "/" ++ key ++ "-" ++ num ++ "-" ++ d)
  = p ++ "/" ++ key ++ "-" ++ num ++ "-" ++ next_description d.
Proof.
  intros Hs Hp Hk Hin Hn Hd Hl. unfold follow_branch.
  rewrite (validateBranchName_shaped p key num d Hs Hp Hk Hn Hd Hl).
  rewrite (proj2 (member_iff key (projectKeys CONFIG)) Hin).
  rewrite checkDescription_suggestion.
  destruct (valid (checkDescription branch _ d _)) eqn:V.
  - apply (checkDescription_accepts branch _ d _ Hd Hl) in V.
    now rewrite (next_description_accepted d V).
  - apply branch_head_assoc.
Qed.

Lemma follow_commit_shaped (key num d : string) :
  skipValidation CONFIG = false ->
  run_of is_upper key -> In key (projectKeys CONFIG) ->
  run_of is_digit num -> d <> "" -> one_line d = true ->
  follow_commit CONFIG (key ++ "-" ++ num ++ "-" ++ d)
  = key ++ "-" ++ num ++ "-" ++ next_description d.
Proof.
  intros Hs Hk Hin Hn Hd Hl. unfold follow_commit.
  rewrite (validateCommitMessage_shaped key num d Hs Hk Hn Hd Hl).
  rewrite (proj2 (member_iff key (projectKeys CONFIG)) Hin).
  rewrite checkDescription_suggestion.
  destruct (valid (checkDescription commit _ d _)) eqn:V.
  - apply (checkDescription_accepts commit _ d _ Hd Hl) in V.
    now rewrite (next_description_accepted d V).
  - apply commit_head_assoc.
Qed.

(** X3.  A suggestion of [validateBranchName] is a name of the right
    format for the same ticket, and taking the suggestions that follow it,
    two more at most, leads to a name that is valid. *)
Theorem branch_suggestions_reach_valid (name s : string) :
  suggestion (validateBranchName CONFIG name) = Some s ->
  exists key num,
    extractTicketId name = Some (key ++ "-" ++ num) /\
    extractTicketId s = Some (key ++ "-" ++ num) /\
    validateBranchName CONFIG (follow_branch CONFIG (follow_branch CONFIG s))
    = validName branch key num.
Proof.
  intros H.
  destruct (skipValidation CONFIG) eqn:Hs.
  { unfold validateBranchName in H. rewrite Hs in H. discriminate H. }
  destruct (match_branch name) as [g|] eqn:M.
  2:{ rewrite (validateBranchName_unshaped name Hs M) in H. discriminate H. }
  apply match_branch_iff in M
    as (p & key & num & desc & Hp & _ & -> & Hk & Hn & Hd & Hl).
  rewrite (validateBranchName_shaped p key num desc Hs Hp Hk Hn Hd Hl) in H.
  destruct (existsb (String.eqb key) (projectKeys CONFIG)) eqn:K;
    [|discriminate H].
  apply member_iff in K.
  rewrite checkDescription_suggestion in H.
  destruct (valid (checkDescription branch _ desc _)); [discriminate H|].
  assert (E : s = p ++ "/" ++ key ++ "-" ++ num ++ "-" ++ next_description desc)
    by (injection H as <-; apply branch_head_assoc).
  rewrite E. clear E H.
  destruct (next_description_shape desc Hd Hl) as [Hd1 Hl1].
  destruct (next_description_shape _ Hd1 Hl1) as [Hd2 Hl2].
  exists key, num.
  split; [now apply extractTicketId_branch|].
  split; [now apply extractTicketId_branch|].
  rewrite (follow_branch_shaped p key num _ Hs Hp Hk K Hn Hd1 Hl1).
  rewrite (follow_branch_shaped p key num _ Hs Hp Hk K Hn Hd2 Hl2).
  apply shaped_branch_valid; try assumption.
  now apply three_rounds.
Qed.

(** X4.  A suggestion of [validateCommitMessage] is a message of the
    right format for the same ticket, and taking the suggestions that
    follow it, two more at most, leads to a message that is valid. *)
Theorem commit_suggestions_reach_valid (name s : string) :
  suggestion (validateCommitMessage CONFIG name) = Some s ->
  exists key num,
    extractTicketId name = Some (key ++ "-" ++ num) /\
    extractTicketId s = Some (key ++ "-" ++ num) /\
    validateCommitMessage CONFIG (follow_commit CONFIG (follow_commit CONFIG s))
    = validName commit key num.
Proof.
  intros H.
  destruct (skipValidation CONFIG) eqn:Hs.
  { unfold validateCommitMessage in H. rewrite Hs in H. discriminate H. }
  destruct (match_commit name) as [g|] eqn:M.
  2:{ rewrite (validateCommitMessage_unshaped name Hs M) in H. discriminate H. }
  apply match_commit_iff in M
    as (key & num & desc & _ & -> & Hk & Hn & Hd & Hl).
  rewrite (validateCommitMessage_shaped key num desc Hs Hk Hn Hd Hl) in H.
  destruct (existsb (String.eqb key) (projectKeys CONFIG)) eqn:K;
    [|discriminate H].
  apply member_iff in K.
  rewrite checkDescription_suggestion in H.
  destruct (valid (checkDescription commit _ desc _)); [discriminate H|].
  assert (E : s = key ++ "-" ++ num ++ "-" ++ next_description desc)
    by (injection H as <-; apply commit_head_assoc).
  rewrite E. clear E H.
  destruct (next_description_shape desc Hd Hl) as [Hd1 Hl1].
  destruct (next_description_shape _ Hd1 Hl1) as [Hd2 Hl2].
  exists key, num.
  split; [now apply extractTicketId_commit|].
  split; [now apply extractTicketId_commit|].
  rewrite (follow_commit_shaped key num _ Hs Hk K Hn Hd1 Hl1).
  rewrite (follow_commit_shaped key num _ Hs Hk K Hn Hd2 Hl2).
  apply shaped_commit_valid; try assumption.
  now apply three_rounds.
Qed.

End ShapeFacts.

Section ShopFacts.
Import JSString ShopValidator.

Lemma test_commit_iff (s : string) :
  test_commit s = true <->
  exists num desc,
    s = "SHOP-" ++ num ++ "-" ++ desc /\
    run_of is_digit num /\ run_of slug_unit desc.
Proof.
  unfold test_commit, run_of. split.
  - destruct (startsWith s "SHOP-") eqn:P; [|discriminate].
    apply startsWith_iff in P as [rest ->].
    change (drop 5 ("SHOP-" ++ rest)) with rest.
    destruct (span is_digit rest) as [num r] eqn:S.
    apply span_spec in S as (-> & Hn & _).
    destruct num as [|n num]; [discriminate|].
    destruct r as [|d desc]; [discriminate|].
    destruct d as [[] [] [] [] [] [] [] []]; try discriminate.
    destruct desc as [|c desc]; [discriminate|].
    cbn [is_empty negb andb]. intros U.
    exists (String n num), (String c desc).
    split; [reflexivity|]. split; (split; [discriminate | assumption]).
  - intros (num & desc & -> & [Hn Un] & [Hd Ud]).
    change (startsWith ("SHOP-" ++ num ++ "-" ++ desc) "SHOP-") with true.
    cbv iota. change (drop 5 ("SHOP-" ++ num ++ "-" ++ desc)) with (num ++ "-" ++ desc).
    rewrite (span_app is_digit num ("-" ++ desc) Un).
    2:{ intros c b' H. injection H as <- _. reflexivity. }
    destruct num; [congruence|]. simpl.
    destruct desc; [congruence|]. cbn [is_empty negb andb]. exact Ud.
Qed.

Lemma test_branch_iff (s : string) :
  test_branch s = true <->
  exists word rest,
    s = word ++ "/" ++ rest /\ run_of is_lower word /\ test_commit rest = true.
Proof.
  unfold test_branch, run_of. split.
  - destruct (span is_lower s) as [word r] eqn:S.
    apply span_spec in S as (-> & Hw & _).
    destruct word as [|w word]; [discriminate|].
    destruct r as [|d rest]; [discriminate|].
    destruct d as [[] [] [] [] [] [] [] []]; try discriminate.
    intros T. exists (String w word), rest.
    split; [reflexivity|]. split; [split; [discriminate | assumption] | assumption].
  - intros (word & rest & -> & [Hw Uw] & T).
    rewrite (span_app is_lower word ("/" ++ rest) Uw).
    2:{ intros c b' H. injection H as <- _. reflexivity. }
    destruct word; [congruence|]. exact T.
Qed.

Lemma commit_valid_test (commitMessage : string) :
  valid (validateCommitMessage commitMessage) = true <->
  test_commit commitMessage = true.
Proof.
  unfold validateCommitMessage.
  destruct (test_commit commitMessage); simpl; split; congruence.
Qed.

Lemma branch_valid_test (branchName : string) :
  valid (validateBranchName branchName) = true <->
  existsb (startsWith branchName) validPrefixes = true /\
  test_branch branchName = true.
Proof.
  unfold validateBranchName. cbv zeta.
  destruct (existsb (startsWith branchName) validPrefixes); cbn [negb];
    [|split; [discriminate | now intros [F _]]].
  destruct (test_branch branchName); cbn [negb valid];
    [now split | split; [discriminate | now intros [_ F]]].
Qed.

(** The pattern takes all the lower-case letters up to the slash for the
    word, so the word is the whole of one of the three prefixes. *)
Lemma shop_prefix_word (word rest : string) :
  all_units is_lower word = true ->
  (existsb (startsWith (word ++ "/" ++ rest)) validPrefixes = true <->
   In word shop_prefixes).
Proof.
  intros Uw. split.
  - intros P. apply existsb_exists in P as (q & Hq & Sq).
    apply startsWith_iff in Sq as [after E].
    assert (S1 : span is_lower (word ++ "/" ++ rest) = (word, "/" ++ rest)).
    { apply span_app; [assumption|].
      intros c b' H. injection H as <- _. reflexivity. }
    simpl in Hq.
    destruct Hq as [<-|[<-|[<-|[]]]]; rewrite E in S1; simpl in S1;
      injection S1 as <- _; simpl; tauto.
  - simpl. intros [<-|[<-|[<-|[]]]]; reflexivity.
Qed.

(** X5.  A commit message is valid for the first validator exactly when
    it is SHOP, a dash, a number, a dash and a description of lower-case
    letters, digits and dashes, nothing before and nothing after. *)
Theorem shop_commit_valid_iff (commitMessage : string) :
  valid (validateCommitMessage commitMessage) = true <->
  exists num desc,
    commitMessage = "SHOP-" ++ num ++ "-" ++ desc /\
    run_of is_digit num /\ run_of slug_unit desc.
Proof.
  rewrite <- test_commit_iff. unfold validateCommitMessage.
  destruct (test_commit commitMessage); simpl; split; congruence.
Qed.

(** X6.  A branch name is valid for the first validator exactly when it is
    feature, bugfix or hotfix, a slash and a valid commit message. *)
Theorem shop_branch_valid_iff (branchName : string) :
  valid (validateBranchName branchName) = true <->
  exists p rest,
    In p shop_prefixes /\
    branchName = p ++ "/" ++ rest /\
    valid (validateCommitMessage rest) = true.
Proof.
  rewrite branch_valid_test. split.
  - intros [P T].
    apply test_branch_iff in T as (word & rest & -> & [Hw Uw] & T).
    exists word, rest. split; [now apply (shop_prefix_word word rest Uw)|].
    split; [reflexivity | now apply commit_valid_test].
  - intros (p & rest & Hp & -> & V). apply commit_valid_test in V.
    assert (W : run_of is_lower p).
    { simpl in Hp.
      destruct Hp as [<-|[<-|[<-|[]]]]; split; try discriminate; reflexivity. }
    split.
    + now apply (shop_prefix_word p rest (proj2 W)).
    + apply test_branch_iff. now exists p, rest.
Qed.

End ShopFacts.

Section Compatibility.
Import JSString.

Lemma slug_unit_accepted (c : ascii) :
  ShopValidator.slug_unit c = true ->
  SimpleValidator.line_terminator c = false /\
  c <> " "%char /\ c <> "_"%char /\ toLowerCase_unit c = c.
Proof.
  destruct c as [[] [] [] [] [] [] [] []]; intros H; try discriminate H;
    repeat split; discriminate.
Qed.

Lemma slug_accepted (desc : string) :
  run_of ShopValidator.slug_unit desc -> accepted_description desc.
Proof.
  intros [Hd U]. split; [assumption|].
  intros c Hc. apply slug_unit_accepted.
  now apply (proj1 (all_units_forall _ desc) U).
Qed.

Lemma shop_key : run_of is_upper "SHOP".
Proof. split; [discriminate | reflexivity]. Qed.

(** X7.  What the first validator accepts, the simple validator accepts
    too, whenever SHOP is one of its project keys: a valid branch name
    stays valid, and so does a valid commit message. *)
Theorem shop_valid_stays_valid (CONFIG : SimpleValidator.config) (name : string) :
  In "SHOP" (SimpleValidator.projectKeys CONFIG) ->
  (ShopValidator.valid (ShopValidator.validateBranchName name) = true ->
   SimpleValidator.valid (SimpleValidator.validateBranchName CONFIG name) = true) /\
  (ShopValidator.valid (ShopValidator.validateCommitMessage name) = true ->
   SimpleValidator.valid (SimpleValidator.validateCommitMessage CONFIG name) = true).
Proof.
  intros K.
  destruct (SimpleValidator.skipValidation CONFIG) eqn:Hs.
  { unfold SimpleValidator.validateBranchName, SimpleValidator.validateCommitMessage.
    rewrite Hs. split; reflexivity. }
  split.
  - intros V. apply branch_valid_test in V as [P T].
    apply test_branch_iff in T as (p & rest & -> & [_ Up] & T).
    apply (shop_prefix_word p rest Up) in P as Hp.
    apply test_commit_iff in T as (num & desc & -> & Hn & Hd).
    change ("SHOP-" ++ num ++ "-" ++ desc) with ("SHOP" ++ "-" ++ num ++ "-" ++ desc).
    rewrite (shaped_branch_valid CONFIG p "SHOP" num desc); try assumption.
    + reflexivity.
    + simpl in Hp. simpl. tauto.
    + apply shop_key.
    + now apply slug_accepted.
  - intros V. apply commit_valid_test in V.
    apply test_commit_iff in V as (num & desc & -> & Hn & Hd).
    change ("SHOP-" ++ num ++ "-" ++ desc) with ("SHOP" ++ "-" ++ num ++ "-" ++ desc).
    rewrite (shaped_commit_valid CONFIG "SHOP" num desc); try assumption.
    + reflexivity.
    + apply shop_key.
    + now apply slug_accepted.
Qed.

End Compatibility.

Section CleaningFacts.
Import JSString Relevance.

Variable engine : string -> string -> option string.

Lemma skip_length (p : ascii -> bool) (s : string) :
  String.length (skip p s) <= String.length s.
Proof.
  unfold skip. induction s as [|c s IH]; simpl; [lia|].
  destruct (p c); [|simpl; lia].
  destruct (span p s). simpl in *. lia.
Qed.

Lemma skip_step (p : ascii -> bool) (c : ascii) (s : string) :
  skip p (String c s) = if p c then skip p s else String c s.
Proof.
  unfold skip. simpl. destruct (p c); [|reflexivity]. now destruct (span p s).
Qed.

Lemma without_skip (s : string) :
  without_separators (skip dash_or_underscore s) = without_separators s.
Proof.
  induction s as [|c s IH]; [reflexivity|].
  rewrite skip_step. cbn [without_separators].
  destruct (dash_or_underscore c) eqn:E; [exact IH|].
  cbn [without_separators]. now rewrite E.
Qed.

Lemma replace_empty_ticket (n : nat) (s : string) :
  String.length s <= n -> replaceTicket n "" s = without_separators s.
Proof.
  revert s. induction n as [|n IH]; intros s Hn.
  - destruct s; [reflexivity | simpl in Hn; lia].
  - cbn [replaceTicket]. unfold matchTicketAt. cbn [startsWith String.length drop].
    destruct s as [|c s]; [reflexivity|].
    rewrite skip_step. simpl in Hn.
    destruct (dash_or_underscore c) eqn:E.
    + pose proof (skip_length dash_or_underscore s) as L.
      assert (T : (String.length (skip dash_or_underscore s)
                   <? String.length (String c s))%nat = true).
      { apply Nat.ltb_lt. simpl. lia. }
      rewrite T. rewrite IH by lia. simpl. now rewrite E, without_skip.
    + rewrite Nat.ltb_irrefl. simpl. rewrite E. f_equal. apply IH. lia.
Qed.

(** X8.  With the empty ticket ID the first [replace] deletes every dash
    and every underscore of the name, and the category prefix is removed
    from what is left. *)
Theorem empty_ticket_removes_separators (name : string) :
  cleanName engine name ""
  = Some (removeCategoryPrefix (without_separators (toLowerCase name))).
Proof.
  unfold cleanName, removeTicketId. cbn [toLowerCase literal_source all_units
    list_ascii_of_string forallb].
  now rewrite replace_empty_ticket by lia.
Qed.

(** No occurrence of the literal starts at any position of [s]. *)
Lemma replace_without_ticket (lit : string) (n : nat) (s : string) :
  ~ occurs_in lit s -> String.length s <= n -> replaceTicket n lit s = s.
Proof.
  revert s. induction n as [|n IH]; intros s H Hn; [reflexivity|].
  cbn [replaceTicket]. unfold matchTicketAt.
  destruct (startsWith s lit) eqn:P.
  { exfalso. apply H. apply startsWith_iff in P as [after ->].
    now exists "", after. }
  destruct s as [|c s]; [reflexivity|]. f_equal. simpl in Hn.
  apply IH; [|lia]. intros (b & a & ->). apply H.
  now exists (String c b), a.
Qed.

Lemma replace_keeps_unit (lit : string) (n : nat) (c : ascii) (s : string) :
  startsWith (String c s) lit = false ->
  replaceTicket (S n) lit (String c s) = String c (replaceTicket n lit s).
Proof.
  intros P. cbn [replaceTicket]. unfold matchTicketAt. now rewrite P.
Qed.

Lemma replace_drops_ticket (lit : string) (n : nat) (r : string) :
  lit <> "" ->
  replaceTicket (S n) lit (lit ++ r)
  = replaceTicket n lit (skip dash_or_underscore r).
Proof.
  intros Hl. cbn [replaceTicket]. unfold matchTicketAt.
  rewrite (proj2 (startsWith_iff (lit ++ r) lit)) by now exists r.
  rewrite drop_app.
  assert (T : (String.length (skip dash_or_underscore r)
               <? String.length (lit ++ r))%nat = true).
  { apply Nat.ltb_lt. pose proof (skip_length dash_or_underscore r).
    rewrite length_append. destruct lit; [congruence | simpl; lia]. }
  now rewrite T.
Qed.

(** A ticket pattern does not match where lower-case letters run up to a
    slash. *)
Lemma no_ticket_before_slash (a l n r : string) :
  all_units is_lower a = true -> all_units is_lower l = true ->
  startsWith (a ++ "/" ++ r) (l ++ "-" ++ n) = false.
Proof.
  revert l. induction a as [|c a IH]; intros l Ha Hl.
  - destruct l as [|x l]; [reflexivity|].
    unfold all_units in Hl. cbn [list_ascii_of_string forallb] in Hl.
    apply andb_true_iff in Hl as [Hx _].
    cbn [append startsWith].
    destruct x as [[] [] [] [] [] [] [] []]; try discriminate Hx; reflexivity.
  - unfold all_units in Ha. cbn [list_ascii_of_string forallb] in Ha.
    apply andb_true_iff in Ha as [Hc Ha].
    destruct l as [|x l]; cbn [append startsWith].
    + destruct c as [[] [] [] [] [] [] [] []]; try discriminate Hc; reflexivity.
    + unfold all_units in Hl. cbn [list_ascii_of_string forallb] in Hl.
      apply andb_true_iff in Hl as [_ Hl].
      change (a ++ String "/" r) with (a ++ "/" ++ r).
      change (l ++ String "-" n) with (l ++ "-" ++ n).
      rewrite (IH l Ha Hl). apply andb_false_r.
Qed.

Lemma replace_keeps_prefix (a l n r : string) (k : nat) :
  all_units is_lower a = true -> all_units is_lower l = true ->
  replaceTicket (String.length (a ++ "/") + k) (l ++ "-" ++ n) (a ++ "/" ++ r)
  = a ++ "/" ++ replaceTicket k (l ++ "-" ++ n) r.
Proof.
  intros Ha Hl. induction a as [|c a IH].
  - change (replaceTicket (S k) (l ++ "-" ++ n) (String "/" r)
            = String "/" (replaceTicket k (l ++ "-" ++ n) r)).
    apply replace_keeps_unit.
    apply (no_ticket_before_slash "" l n r); [reflexivity | assumption].
  - change (replaceTicket (S (String.length (a ++ "/") + k)) (l ++ "-" ++ n)
              (String c (a ++ "/" ++ r))
            = String c (a ++ "/" ++ replaceTicket k (l ++ "-" ++ n) r)).
    rewrite replace_keeps_unit.
    + f_equal. apply IH. unfold all_units in *.
      cbn [list_ascii_of_string forallb] in Ha.
      now apply andb_true_iff in Ha as [_ Ha].
    + apply (no_ticket_before_slash (String c a) l n r); assumption.
Qed.

Lemma lower_of_upper (c : ascii) :
  is_upper c = true -> is_lower (toLowerCase_unit c) = true.
Proof.
  destruct c as [[] [] [] [] [] [] [] []]; intros H;
    try discriminate H; reflexivity.
Qed.

Lemma lower_key (key : string) :
  all_units is_upper key = true -> all_units is_lower (toLowerCase key) = true.
Proof.
  unfold all_units. induction key as [|c key IH]; simpl; [reflexivity|].
  intros H. apply andb_true_iff in H as [Hc H].
  now rewrite (lower_of_upper c Hc), IH.
Qed.

Lemma prefix_lower (p : string) :
  In p categoryPrefixes -> toLowerCase p = p /\ all_units is_lower p = true.
Proof.
  simpl. intros [<-|[<-|[<-|[<-|[<-|[]]]]]]; split; reflexivity.
Qed.

Lemma skip_stops (p : ascii -> bool) (d : string) :
  (forall c r, d = String c r -> p c = false) -> skip p d = d.
Proof.
  intros H. destruct d as [|c r]; [reflexivity|].
  rewrite skip_step. now rewrite (H c r eq_refl).
Qed.

Lemma ticket_literal (key num : string) :
  all_units is_upper key = true -> all_units is_digit num = true ->
  literal_source (toLowerCase key ++ "-" ++ toLowerCase num) = true.
Proof.
  intros U D. rewrite !literal_source_app.
  rewrite (literal_source_lower _ _ lower_letter_is_literal U).
  rewrite (literal_source_lower _ _ lower_digit_is_literal D).
  reflexivity.
Qed.

Lemma removeCategoryPrefix_branch (p d : string) :
  In p categoryPrefixes ->
  (forall c r, d = String c r -> dash_underscore_slash c = false) ->
  removeCategoryPrefix (p ++ "/" ++ d) = d.
Proof.
  intros Hp Hd. unfold removeCategoryPrefix. simpl in Hp.
  destruct Hp as [<-|[<-|[<-|[<-|[<-|[]]]]]]; simpl;
    rewrite skip_step; simpl; now apply skip_stops.
Qed.

Lemma lower_dash (a b : string) :
  toLowerCase (a ++ "-" ++ b) = toLowerCase a ++ "-" ++ toLowerCase b.
Proof. now rewrite toLowerCase_app. Qed.

Lemma lower_slash (a b : string) :
  toLowerCase (a ++ "/" ++ b) = toLowerCase a ++ "/" ++ toLowerCase b.
Proof. now rewrite toLowerCase_app. Qed.

Lemma starts_clear (d : string) :
  (forall c r, d = String c r -> dash_underscore_slash c = false) ->
  forall c r, d = String c r -> dash_or_underscore c = false.
Proof.
  intros H c r E. specialize (H c r E).
  destruct c as [[] [] [] [] [] [] [] []]; try reflexivity; discriminate H.
Qed.

(** The scan over [lit ++ "-" ++ d], where [d] holds no occurrence of the
    literal and does not begin with a separator, leaves [d]. *)
Lemma replace_ticket_then_description (lit d : string) (n : nat) :
  lit <> "" -> ~ occurs_in lit d ->
  (forall c r, d = String c r -> dash_or_underscore c = false) ->
  String.length d <= n ->
  replaceTicket (S n) lit (lit ++ "-" ++ d) = d.
Proof.
  intros Hlit Hocc Hsep Hn.
  rewrite (replace_drops_ticket lit n _ Hlit).
  change ("-" ++ d) with (String "-" d). rewrite skip_step.
  change (dash_or_underscore "-") with true. cbv iota.
  rewrite (skip_stops _ d Hsep).
  now apply replace_without_ticket.
Qed.

(** X9.  For a branch name of the validators' format, scored against its
    own ticket ID, the cleaned name is the lower-cased description: the
    prefix, the ticket ID and the dash after it are gone and nothing else
    is, provided the description does not begin with a dash, an underscore
    or a slash and does not hold the ticket ID again. *)
Theorem cleanName_of_branch (p key num desc : string) :
  In p categoryPrefixes ->
  run_of is_upper key -> run_of is_digit num ->
  (forall c r, toLowerCase desc = String c r -> dash_underscore_slash c = false) ->
  ~ occurs_in (toLowerCase (key ++ "-" ++ num)) (toLowerCase desc) ->
  cleanName engine (p ++ "/" ++ key ++ "-" ++ num ++ "-" ++ desc)
    (key ++ "-" ++ num)
  = Some (toLowerCase desc).
Proof.
  intros Hp [Hk Uk] [Hn Un] Hstart Hocc.
  destruct (prefix_lower p Hp) as [Lp Up].
  unfold cleanName, removeTicketId.
  rewrite lower_slash, !lower_dash, Lp.
  rewrite lower_dash in Hocc.
  rewrite (ticket_literal key num Uk Un).
  set (lk := toLowerCase key) in *. set (ln := toLowerCase num) in *.
  set (d := toLowerCase desc) in *.
  set (lit := lk ++ "-" ++ ln) in *.
  assert (Hlit : lit <> "").
  { unfold lit, lk. destruct key; [congruence | discriminate]. }
  assert (Erest : lk ++ "-" ++ ln ++ "-" ++ d = lit ++ "-" ++ d).
  { unfold lit. now rewrite !append_assoc. }
  rewrite Erest.
  rewrite (replaceTicket_rounds lit _
             (String.length (p ++ "/") + S (String.length (lit ++ "-" ++ d)))).
  2:{ lia. }
  2:{ rewrite (length_append p), (length_append p). simpl. lia. }
  unfold lit at 1 3.
  rewrite (replace_keeps_prefix p lk ln _ _ Up (lower_key key Uk)).
  fold lit.
  rewrite (replace_ticket_then_description lit d _ Hlit Hocc
             (starts_clear d Hstart)).
  2:{ rewrite length_append. simpl. lia. }
  f_equal. now apply removeCategoryPrefix_branch.
Qed.

End CleaningFacts.

Section CacheFacts.
Import JSString JiraValidator.

Variable extractKeywords : string -> list string.
Variable engine : string -> string -> option string.
Variable validURL : string -> bool.
Variable JIRA_CONFIG : config.

Lemma get_set (c : cache) (k : string) (r : result) :
  get (set c k r) k = Some r.
Proof.
  induction c as [|[k' r'] c IH]; simpl.
  - now rewrite String.eqb_refl.
  - destruct (String.eqb k' k) eqn:E; simpl; rewrite E; [reflexivity | exact IH].
Qed.

Lemma get_set_other (c : cache) (k k' : string) (r : result) :
  k' <> k -> get (set c k r) k' = get c k'.
Proof.
  intros N. induction c as [|[x r'] c IH]; simpl.
  - destruct (String.eqb k k') eqn:E; [|reflexivity].
    apply String.eqb_eq in E. congruence.
  - destruct (String.eqb x k) eqn:E; simpl.
    + destruct (String.eqb x k') eqn:E'; [|reflexivity].
      apply String.eqb_eq in E, E'. congruence.
    + now rewrite IH.
Qed.

Lemma set_stored (c : cache) (k : string) (r : result) :
  get (set c k r) k = Some r /\
  forall k', k' <> k -> get (set c k r) k' = get c k'.
Proof. split; [apply get_set | intros; now apply get_set_other]. Qed.

Lemma validateUncached_resolved (c c' : cache) (t : string) (later : Z) (r : result) :
  validateUncached validURL JIRA_CONFIG c t later = Resolved r c' ->
  c' = set c t r.
Proof.
  unfold validateUncached.
  destruct (not_configured JIRA_CONFIG).
  - intros H. now injection H as <- <-.
  - destruct (negb _); [|destruct (validURL _); discriminate].
    intros H. now injection H as <- <-.
Qed.

(** X10.  Whenever the promise is resolved, by the executor or by one of
    the three handlers, the result it is resolved with is the entry of the
    cache for this ticket, and the entries of the other tickets are as
    they were. *)
Theorem resolved_result_is_cached
    (c c' : cache) (ticketId name : string) (now later : Z) (r : result) :
  validateJiraTicket extractKeywords engine validURL JIRA_CONFIG c ticketId name now later
    = Resolved r c' \/
  (exists res, onEnd extractKeywords engine c ticketId name res now later = (r, c')) \/
  (exists reason, onError c ticketId reason now = (r, c')) \/
  onTimeout JIRA_CONFIG c ticketId now = (r, c') ->
  get c' ticketId = Some r /\
  forall k, k <> ticketId -> get c' k = get c k.
Proof.
  intros [H|[[res H]|[[reason H]|H]]].
  - unfold validateJiraTicket in H.
    destruct (get c ticketId) as [cached|] eqn:G.
    + destruct (fresh JIRA_CONFIG now cached).
      * destruct (_ && _ && _).
        -- destruct (Relevance.validateContentRelevance _ _ _ _ _); [|discriminate].
           injection H as <- <-. apply set_stored.
        -- injection H as <- <-. now split.
      * apply validateUncached_resolved in H. subst. apply set_stored.
    + apply validateUncached_resolved in H. subst. apply set_stored.
  - unfold onEnd in H. injection H as <- <-. apply set_stored.
  - unfold onError in H. injection H as <- <-. apply set_stored.
  - unfold onTimeout in H. injection H as <- <-. apply set_stored.
Qed.

(** X11.  The executor reaches the call of [https.request] exactly when
    the cache holds no fresh entry for the ticket, validation is not
    skipped, the three settings of the connection are there, the part of
    the ticket ID before its first dash is a configured project key, and
    [new URL] accepts the address made of [apiUrl], a slash when it does
    not end with one, and the path of the issue; the cache is then left as
    it is. *)
Theorem request_iff (c c' : cache) (ticketId name : string) (now later : Z) :
  validateJiraTicket extractKeywords engine validURL JIRA_CONFIG c ticketId name now later
    = Requesting c'
  <->
  c' = c /\
  (forall cached, get c ticketId = Some cached ->
     (cacheTTL JIRA_CONFIG * 60 * 1000 <= now - timestamp cached)%Z) /\
  skipValidation JIRA_CONFIG = false /\
  (exists url user token,
     apiUrl JIRA_CONFIG = Some url /\ url <> "" /\
     username JIRA_CONFIG = Some user /\ user <> "" /\
     apiToken JIRA_CONFIG = Some token /\ token <> "" /\
     validURL (issueURL url ticketId) = true) /\
  In (SimpleValidator.split_dash_0 ticketId) (projectKeys JIRA_CONFIG).
Proof.
  assert (T : forall o, SimpleValidator.truthy o = true <-> exists s, o = Some s /\ s <> "").
  { intros [[|a s]|]; simpl; split; try discriminate.
    - intros (s & E & N). injection E as <-. congruence.
    - intros _. eexists. split; [reflexivity | discriminate].
    - reflexivity.
    - intros (s & E & _). discriminate. }
  assert (U : validateUncached validURL JIRA_CONFIG c ticketId later = Requesting c' <->
              c' = c /\ skipValidation JIRA_CONFIG = false /\
              (exists url user token,
                 apiUrl JIRA_CONFIG = Some url /\ url <> "" /\
                 username JIRA_CONFIG = Some user /\ user <> "" /\
                 apiToken JIRA_CONFIG = Some token /\ token <> "" /\
                 validURL (issueURL url ticketId) = true) /\
              In (SimpleValidator.split_dash_0 ticketId) (projectKeys JIRA_CONFIG)).
  { unfold validateUncached, not_configured.
    destruct (skipValidation JIRA_CONFIG).
    { simpl. split; [discriminate | intros (_ & F & _); discriminate]. }
    cbn [orb].
    destruct (SimpleValidator.truthy (apiUrl JIRA_CONFIG)) eqn:A; cbn [negb orb].
    2:{ split; [discriminate|]. intros (_ & _ & (u & ? & ? & E & N & _) & _).
        assert (X : SimpleValidator.truthy (apiUrl JIRA_CONFIG) = true)
          by (apply T; now exists u).
        congruence. }
    destruct (SimpleValidator.truthy (username JIRA_CONFIG)) eqn:B; cbn [negb orb].
    2:{ split; [discriminate|]. intros (_ & _ & (? & u & ? & _ & _ & E & N & _) & _).
        assert (X : SimpleValidator.truthy (username JIRA_CONFIG) = true)
          by (apply T; now exists u).
        congruence. }
    destruct (SimpleValidator.truthy (apiToken JIRA_CONFIG)) eqn:C; cbn [negb orb].
    2:{ split; [discriminate|].
        intros (_ & _ & (? & ? & u & _ & _ & _ & _ & E & N & _) & _).
        assert (X : SimpleValidator.truthy (apiToken JIRA_CONFIG) = true)
          by (apply T; now exists u).
        congruence. }
    apply T in A as (url & A & A'). apply T in B as (user & B & B').
    apply T in C as (token & C & C').
    assert (O : or_else (apiUrl JIRA_CONFIG) "" = url).
    { rewrite A. destruct url; [congruence | reflexivity]. }
    rewrite O.
    destruct (existsb _ _) eqn:E; cbn [negb].
    - apply existsb_exists in E as (x & I & E). apply String.eqb_eq in E. subst x.
      destruct (validURL (issueURL url ticketId)) eqn:V.
      + split.
        * intros H. injection H as <-. split; [reflexivity|]. split; [reflexivity|].
          split; [|exact I]. exists url, user, token. now repeat (split; [assumption|]).
        * now intros (-> & _).
      + split; [discriminate|].
        intros (_ & _ & (url' & ? & ? & A2 & _ & _ & _ & _ & _ & V') & _).
        rewrite A in A2. injection A2 as <-. congruence.
    - split; [discriminate|]. intros (_ & _ & _ & I).
      assert (X : existsb (String.eqb (SimpleValidator.split_dash_0 ticketId))
                    (projectKeys JIRA_CONFIG) = true).
      { apply existsb_exists. eexists. split; [exact I | apply String.eqb_refl]. }
      congruence. }
  unfold validateJiraTicket.
  destruct (get c ticketId) as [cached|] eqn:G.
  - destruct (fresh JIRA_CONFIG now cached) eqn:F.
    + unfold fresh in F. apply Z.ltb_lt in F. split.
      * destruct (_ && _ && _); [|discriminate].
        destruct (Relevance.validateContentRelevance _ _ _ _ _); discriminate.
      * intros (_ & H & _). specialize (H cached eq_refl). lia.
    + unfold fresh in F. apply Z.ltb_ge in F. rewrite U. split.
      * intros (-> & S' & X & I). split; [reflexivity|]. split; [|now split].
        intros x E. injection E as <-. exact F.
      * intros (-> & _ & S' & X & I). now split.
  - rewrite U. split.
    + intros (-> & S' & X & I). split; [reflexivity|]. split; [|now split].
      intros x E. discriminate.
    + intros (-> & _ & S' & X & I). now split.
Qed.

(** X12.  While an entry is fresh the ticket is answered from it: no
    request goes out and no address is parsed, and the answer has the entry's [valid], message,
    summary and time stamp whatever the name is, so a hit neither judges
    the name nor gives the entry more time; only [relevance] is computed
    again, for a name that is not empty when the entry is valid and has a
    summary.  The promise is rejected only by a throw of the scorer. *)
Theorem fresh_entry_answers
    (c : cache) (ticketId name : string) (now later : Z) (cached : result) :
  get c ticketId = Some cached ->
  (now - timestamp cached < cacheTTL JIRA_CONFIG * 60 * 1000)%Z ->
  match validateJiraTicket extractKeywords engine validURL JIRA_CONFIG c ticketId name now later with
  | Resolved r c' =>
      valid r = valid cached /\ message_ r = message_ cached /\
      summary r = summary cached /\ timestamp r = timestamp cached /\
      skipped r = skipped cached /\
      (valid cached = false -> r = cached /\ c' = c)
  | Rejected e c' =>
      c' = c /\ valid cached = true /\
      Relevance.validateContentRelevance extractKeywords engine name
        (summary cached) ticketId = Relevance.Thrown e
  | InvalidURL _ _ => False
  | Requesting _ => False
  end.
Proof.
  intros G F. unfold validateJiraTicket. rewrite G.
  unfold fresh. rewrite (proj2 (Z.ltb_lt _ _) F).
  destruct (valid cached) eqn:V.
  - destruct (negb (is_empty name) && true && SimpleValidator.truthy (summary cached)).
    + destruct (Relevance.validateContentRelevance _ _ _ _ _) eqn:E.
      * simpl. rewrite V. repeat split; try reflexivity; discriminate.
      * now repeat split.
    + rewrite V. repeat split; try reflexivity; discriminate.
  - rewrite andb_false_r. simpl. rewrite V. now repeat split.
Qed.

(** X13.  The handler of [end] reports a valid ticket exactly for a
    response with status 200 whose issue can be read and, when a name was
    given, whose summary the scorer finds relevant to that name. *)
Theorem endResult_valid_iff
    (ticketId name : string) (res : response) (now later : Z) :
  valid (endResult extractKeywords engine ticketId name res now later) = true
  <->
  statusCode res = 200%Z /\
  exists i, issueData res = Read i /\
    (name = "" \/
     exists v, Relevance.validateContentRelevance extractKeywords engine name
                 (issue_summary i) ticketId = Relevance.Returned v /\
               Relevance.relevant v = true).
Proof.
  unfold endResult.
  destruct (statusCode res =? 200)%Z eqn:S200.
  - apply Z.eqb_eq in S200.
    destruct (issueData res) as [reason|i].
    + simpl. split; [discriminate|]. intros (_ & i & E & _). discriminate.
    + destruct name as [|a name]; cbn [is_empty negb].
      * simpl. split; [|reflexivity]. intros _. split; [exact S200|].
        exists i. split; [reflexivity | now left].
      * destruct (Relevance.validateContentRelevance _ _ _ _ _) as [v|e] eqn:E.
        -- destruct (Relevance.relevant v) eqn:R; simpl.
           ++ split; [|reflexivity]. intros _. split; [exact S200|].
              exists i. split; [reflexivity|]. right. now exists v.
           ++ split; [discriminate|].
              intros (_ & i' & I & [N|(v' & E' & R')]); [discriminate|].
              injection I as <-. rewrite E in E'. injection E' as <-. congruence.
        -- simpl. split; [discriminate|].
           intros (_ & i' & I & [N|(v' & E' & R')]); [discriminate|].
           injection I as <-. rewrite E in E'. discriminate.
  - apply Z.eqb_neq in S200.
    assert (F : forall r : result, valid r = false ->
                (valid r = true <-> statusCode res = 200%Z /\
                  exists i, issueData res = Read i /\
                  (name = "" \/
                   exists v, Relevance.validateContentRelevance extractKeywords engine
                               name (issue_summary i) ticketId = Relevance.Returned v /\
                             Relevance.relevant v = true))).
    { intros r V. rewrite V. split; [discriminate | now intros (X & _)]. }
    destruct (statusCode res =? 404)%Z; [now apply F|].
    destruct (statusCode res =? 401)%Z; [now apply F|].
    destruct (errorData res); now apply F.
Qed.

(** X14.  A ticket answered invalid because the name did not match its
    summary stays invalid for every other name: until the entry is older
    than the time to live, each call for the ticket is resolved with that
    first result, the verdict on the first name in it, and the new name is
    not scored. *)
Theorem mismatch_answers_later_names
    (c : cache) (ticketId name : string) (res : response) (t0 t1 : Z)
    (i : issue) (v : Relevance.verdict) :
  name <> "" ->
  statusCode res = 200%Z -> issueData res = Read i ->
  Relevance.validateContentRelevance extractKeywords engine name
    (issue_summary i) ticketId = Relevance.Returned v ->
  Relevance.relevant v = false ->
  let (r, c') := onEnd extractKeywords engine c ticketId name res t0 t1 in
  valid r = false /\ relevance r = Some v /\ timestamp r = t0 /\
  forall other now later,
    (now - t0 < cacheTTL JIRA_CONFIG * 60 * 1000)%Z ->
    validateJiraTicket extractKeywords engine validURL JIRA_CONFIG c' ticketId other now later
    = Resolved r c'.
Proof.
  intros N S200 I E R. unfold onEnd.
  set (r := endResult extractKeywords engine ticketId name res t0 t1).
  assert (Er : r = {| valid := false;
                      message_ := ContentMismatch (issue_summary i);
                      summary := issue_summary i;
                      status := Some (issue_status i);
                      assignee := Some (or_else (issue_assignee i) "Unassigned");
                      timestamp := t0; skipped := false; relevance := Some v |}).
  { unfold r, endResult. rewrite S200, I. cbn [Z.eqb Pos.eqb].
    destruct name as [|a name]; [congruence|]. cbn [is_empty negb].
    rewrite E, R. reflexivity. }
  split; [now rewrite Er|]. split; [now rewrite Er|]. split; [now rewrite Er|].
  intros other now later F.
  unfold validateJiraTicket. rewrite get_set.
  unfold fresh. replace (timestamp r) with t0 by now rewrite Er.
  rewrite (proj2 (Z.ltb_lt _ _) F).
  replace (valid r) with false by now rewrite Er.
  now rewrite andb_false_r.
Qed.

End CacheFacts.

Section StatsFacts.
Import JiraValidator.

Lemma visit_scanned (total : nat) (seen : cache) (s : scan) (kv : string * result) :
  scanned total seen s -> scanned total (seen ++ [kv])%list (visit s kv).
Proof.
  intros (T & V & I & K). destruct kv as [k e]. unfold scanned, visit.
  cbn [stats_ totalEntries validEntries invalidEntries skippedEntries].
  rewrite !filter_app, !length_app. cbn [filter snd].
  split; [exact T|]. rewrite V, I, K.
  destruct (valid e), (skipped e); cbn [negb List.length]; repeat split; lia.
Qed.

Lemma fold_scanned (total : nat) (todo seen : cache) (s : scan) :
  scanned total seen s ->
  scanned total (seen ++ todo)%list (fold_left visit todo s).
Proof.
  revert seen s. induction todo as [|kv todo IH]; intros seen s H; simpl.
  - now rewrite app_nil_r.
  - replace (seen ++ kv :: todo)%list with ((seen ++ [kv]) ++ todo)%list
      by now rewrite <- app_assoc.
    apply IH. now apply visit_scanned.
Qed.

Lemma filter_split_length {A : Type} (p : A -> bool) (l : list A) :
  (List.length (filter p l) + List.length (filter (fun x => negb (p x)) l)
   = List.length l)%nat.
Proof.
  induction l as [|x l IH]; simpl; [reflexivity|].
  destruct (p x); simpl; lia.
Qed.

Lemma filter_length_le {A : Type} (p : A -> bool) (l : list A) :
  (List.length (filter p l) <= List.length l)%nat.
Proof.
  induction l as [|x l IH]; simpl; [lia|]. destruct (p x); simpl; lia.
Qed.

(** X15.  The counts of [getCacheStats] are those of the cache: the
    total is the number of entries, every entry is counted once as valid
    or as invalid, so the two counts add up to the total, and the skipped
    entries are counted among them. *)
Theorem getCacheStats_counts (ticketCache : cache) :
  let s := getCacheStats ticketCache in
  totalEntries s = List.length ticketCache /\
  validEntries s = List.length (filter (fun kv => valid (snd kv)) ticketCache) /\
  skippedEntries s = List.length (filter (fun kv => skipped (snd kv)) ticketCache) /\
  (validEntries s + invalidEntries s = totalEntries s)%nat /\
  (skippedEntries s <= totalEntries s)%nat.
Proof.
  unfold getCacheStats.
  set (s0 := {| stats_ := _; oldestTime := None; newestTime := 0 |}).
  assert (H : scanned (List.length ticketCache) [] s0) by now repeat split.
  apply (fold_scanned _ ticketCache) in H. simpl app in H.
  destruct H as (T & V & I & K). cbv zeta.
  rewrite T, V, I, K. split; [reflexivity|]. split; [reflexivity|].
  split; [reflexivity|]. split.
  - apply (filter_split_length (fun kv : string * result => valid (snd kv))).
  - apply filter_length_le.
Qed.

End StatsFacts.

Section DatesFacts.
Import JiraValidator.

Lemma dates_more (l : cache) (kv : string * result) (d : dated) :
  dates l d -> dates (l ++ [kv])%list d.
Proof. intros (e & I & E). exists e. split; [apply in_or_app; now left | exact E]. Qed.

Lemma dates_last (l : cache) (k : string) (e : result) :
  dates (l ++ [(k, e)])%list {| ticketId_ := k; date := timestamp e |}.
Proof. exists e. split; [apply in_or_app; right; now left | reflexivity]. Qed.

Lemma visit_dated (seen : cache) (s : scan) (kv : string * result) :
  dated_scan seen s -> dated_scan (seen ++ [kv])%list (visit s kv).
Proof.
  intros (O & OT & N & NT). destruct kv as [k e]. unfold dated_scan, visit.
  cbn [stats_ oldestEntry newestEntry oldestTime newestTime].
  rewrite OT, NT. split; [|split; [|split]].
  - destruct (oldestEntry (stats_ s)) as [d|]; cbn [option_map older oldest_of] in *.
    + destruct O as [D M]. destruct (timestamp e <? date d)%Z eqn:L.
      * apply Z.ltb_lt in L. split; [apply dates_last|].
        intros kv [I|[<-|[]]]%in_app_or; cbn [date snd]; [|lia].
        specialize (M kv I). lia.
      * apply Z.ltb_ge in L. split; [now apply dates_more|].
        intros kv [I|[<-|[]]]%in_app_or; cbn [snd]; [now apply M | lia].
    + subst seen. split; [apply (dates_last [])|].
      intros kv [[]|[<-|[]]]%in_app_or. cbn [date snd]. lia.
  - destruct (oldestEntry (stats_ s)) as [d|]; cbn [option_map older];
      [destruct (timestamp e <? date d)%Z|]; reflexivity.
  - destruct (newestEntry (stats_ s)) as [d|]; cbn [newest_of] in *; cbv iota.
    + destruct N as (P & D & M). destruct (date d <? timestamp e)%Z eqn:L.
      * apply Z.ltb_lt in L. cbn [newest_of date]. split; [lia|]. split; [apply dates_last|].
        intros kv [I|[<-|[]]]%in_app_or; cbn [snd]; [|lia].
        specialize (M kv I). lia.
      * apply Z.ltb_ge in L. split; [exact P|]. split; [now apply dates_more|].
        intros kv [I|[<-|[]]]%in_app_or; cbn [snd]; [now apply M | lia].
    + destruct (0 <? timestamp e)%Z eqn:L.
      * apply Z.ltb_lt in L. cbn [newest_of date]. split; [lia|]. split; [apply dates_last|].
        intros kv [I|[<-|[]]]%in_app_or; cbn [snd]; [|lia].
        specialize (N kv I). lia.
      * apply Z.ltb_ge in L.
        intros kv [I|[<-|[]]]%in_app_or; cbn [snd]; [now apply N | lia].
  - destruct (newestEntry (stats_ s)) as [d|]; cbv iota;
      [destruct (date d <? timestamp e)%Z | destruct (0 <? timestamp e)%Z];
      reflexivity.
Qed.

Lemma fold_dated (todo seen : cache) (s : scan) :
  dated_scan seen s -> dated_scan (seen ++ todo)%list (fold_left visit todo s).
Proof.
  revert seen s. induction todo as [|kv todo IH]; intros seen s H; simpl.
  - now rewrite app_nil_r.
  - replace (seen ++ kv :: todo)%list with ((seen ++ [kv]) ++ todo)%list
      by now rewrite <- app_assoc.
    apply IH. now apply visit_dated.
Qed.

(** X16.  [oldestEntry] is [null] for the empty cache only; otherwise it
    names an entry of the cache with its time stamp, and no entry has a
    smaller one.  [newestEntry] names an entry with the greatest time
    stamp when that is positive, and is [null] when no time stamp of the
    cache is positive. *)
Theorem getCacheStats_oldest_newest (ticketCache : cache) :
  oldest_of ticketCache (oldestEntry (getCacheStats ticketCache)) /\
  newest_of ticketCache (newestEntry (getCacheStats ticketCache)).
Proof.
  unfold getCacheStats.
  set (s0 := {| stats_ := _; oldestTime := None; newestTime := 0 |}).
  assert (H : dated_scan [] s0).
  { unfold dated_scan, s0. cbn. repeat split. intros kv []. }
  apply (fold_dated ticketCache) in H. simpl app in H.
  destruct H as (O & _ & N & _). now split.
Qed.

End DatesFacts.

(** * The properties of the validators and of the cache at concrete inputs *)

Section ShapeExamples.
Import JSString SimpleValidator.

Example valid_branch_name :
  validateBranchName defaultCONFIG "feature/SHOP-123-add-login"
  = validName branch "SHOP" "123".
Proof. reflexivity. Qed.

Example three_suggestions :
  follow_branch defaultCONFIG "feature/SHOP-123-Add Login_now"
  = "feature/SHOP-123-Add-Login_now" /\
  follow_branch defaultCONFIG "feature/SHOP-123-Add-Login_now"
  = "feature/SHOP-123-Add-Login-now" /\
  follow_branch defaultCONFIG "feature/SHOP-123-Add-Login-now"
  = "feature/SHOP-123-add-login-now".
Proof. repeat split. Qed.

Lemma branch_name_valid_iff_witness :
  skipValidation defaultCONFIG = false /\
  (valid (validateBranchName defaultCONFIG "feature/SHOP-123-add-login") = true <->
   exists p key num desc,
     "feature/SHOP-123-add-login" = p ++ "/" ++ key ++ "-" ++ num ++ "-" ++ desc /\
     In p categoryPrefixes /\
     run_of is_upper key /\ In key (projectKeys defaultCONFIG) /\
     run_of is_digit num /\ accepted_description desc) /\
  validateBranchName defaultCONFIG "feature/SHOP-123-add-login"
  = validName branch "SHOP" "123".
Proof.
  assert (Hs : skipValidation defaultCONFIG = false) by reflexivity.
  destruct (branch_name_valid_iff defaultCONFIG "feature/SHOP-123-add-login" Hs)
    as [I R].
  split; [exact Hs|]. split; [exact I|].
  apply (R "feature" "SHOP" "123" "add-login").
  - reflexivity.
  - left. reflexivity.
  - split; [discriminate | reflexivity].
  - left. reflexivity.
  - split; [discriminate | reflexivity].
  - apply slug_accepted. split; [discriminate | reflexivity].
Defined.

Lemma commit_message_valid_iff_witness :
  skipValidation defaultCONFIG = false /\
  (valid (validateCommitMessage defaultCONFIG "SHOP-123-add-login") = true <->
   exists key num desc,
     "SHOP-123-add-login" = key ++ "-" ++ num ++ "-" ++ desc /\
     run_of is_upper key /\ In key (projectKeys defaultCONFIG) /\
     run_of is_digit num /\ accepted_description desc) /\
  validateCommitMessage defaultCONFIG "SHOP-123-add-login"
  = validName commit "SHOP" "123".
Proof.
  assert (Hs : skipValidation defaultCONFIG = false) by reflexivity.
  destruct (commit_message_valid_iff defaultCONFIG "SHOP-123-add-login" Hs)
    as [I R].
  split; [exact Hs|]. split; [exact I|].
  apply (R "SHOP" "123" "add-login").
  - reflexivity.
  - split; [discriminate | reflexivity].
  - left. reflexivity.
  - split; [discriminate | reflexivity].
  - apply slug_accepted. split; [discriminate | reflexivity].
Defined.

Lemma branch_suggestions_reach_valid_witness :
  suggestion (validateBranchName defaultCONFIG "feature/SHOP-123-Add Login_now")
  = Some "feature/SHOP-123-Add-Login_now" /\
  exists key num,
    extractTicketId "feature/SHOP-123-Add Login_now" = Some (key ++ "-" ++ num) /\
    extractTicketId "feature/SHOP-123-Add-Login_now" = Some (key ++ "-" ++ num) /\
    validateBranchName defaultCONFIG
      (follow_branch defaultCONFIG
         (follow_branch defaultCONFIG "feature/SHOP-123-Add-Login_now"))
    = validName branch key num.
Proof.
  split; [reflexivity|].
  apply (branch_suggestions_reach_valid defaultCONFIG
           "feature/SHOP-123-Add Login_now" "feature/SHOP-123-Add-Login_now").
  reflexivity.
Defined.

Lemma commit_suggestions_reach_valid_witness :
  suggestion (validateCommitMessage defaultCONFIG "SHOP-123-Add Login_now")
  = Some "SHOP-123-Add-Login_now" /\
  exists key num,
    extractTicketId "SHOP-123-Add Login_now" = Some (key ++ "-" ++ num) /\
    extractTicketId "SHOP-123-Add-Login_now" = Some (key ++ "-" ++ num) /\
    validateCommitMessage defaultCONFIG
      (follow_commit defaultCONFIG
         (follow_commit defaultCONFIG "SHOP-123-Add-Login_now"))
    = validName commit key num.
Proof.
  split; [reflexivity|].
  apply (commit_suggestions_reach_valid defaultCONFIG
           "SHOP-123-Add Login_now" "SHOP-123-Add-Login_now").
  reflexivity.
Defined.

End ShapeExamples.

Section ShopExamples.

Example shop_accepts :
  ShopValidator.validateBranchName "feature/SHOP-3097-ticket-description"
  = {| ShopValidator.valid := true;
       ShopValidator.message_ := ShopValidator.BranchNameIsValid |}.
Proof. reflexivity. Qed.

(** The simple validator accepts names the first one rejects. *)
Example shop_rejects_release :
  ShopValidator.valid (ShopValidator.validateBranchName "release/SHOP-1-v2") = false /\
  SimpleValidator.valid
    (SimpleValidator.validateBranchName SimpleValidator.defaultCONFIG "release/SHOP-1-v2")
  = true.
Proof. split; reflexivity. Qed.

Lemma shop_valid_stays_valid_witness :
  In "SHOP" (SimpleValidator.projectKeys SimpleValidator.defaultCONFIG) /\
  ShopValidator.valid
    (ShopValidator.validateBranchName "feature/SHOP-3097-ticket-description") = true /\
  SimpleValidator.valid
    (SimpleValidator.validateBranchName SimpleValidator.defaultCONFIG
       "feature/SHOP-3097-ticket-description") = true.
Proof.
  assert (K : In "SHOP" (SimpleValidator.projectKeys SimpleValidator.defaultCONFIG))
    by (left; reflexivity).
  split; [exact K|]. split; [reflexivity|].
  apply (proj1 (shop_valid_stays_valid SimpleValidator.defaultCONFIG
                  "feature/SHOP-3097-ticket-description" K)).
  reflexivity.
Defined.

End ShopExamples.

Section CleaningExamples.
Import JSString Relevance.

Example no_ticket_no_separators :
  cleanName rejecting_engine "feature/SHOP-8548-gift_card-app" ""
  = Some "shop8548giftcardapp".
Proof. reflexivity. Qed.

Lemma cleanName_of_branch_witness :
  In "feature" categoryPrefixes /\
  run_of is_upper "SHOP" /\ run_of is_digit "8548" /\
  ~ occurs_in (toLowerCase ("SHOP" ++ "-" ++ "8548")) (toLowerCase "gift-card-app") /\
  cleanName rejecting_engine
    ("feature" ++ "/" ++ "SHOP" ++ "-" ++ "8548" ++ "-" ++ "gift-card-app")
    ("SHOP" ++ "-" ++ "8548")
  = Some (toLowerCase "gift-card-app").
Proof.
  assert (P : In "feature" categoryPrefixes) by (left; reflexivity).
  assert (K : run_of is_upper "SHOP") by (split; [discriminate | reflexivity]).
  assert (N : run_of is_digit "8548") by (split; [discriminate | reflexivity]).
  assert (O : ~ occurs_in (toLowerCase ("SHOP" ++ "-" ++ "8548"))
                (toLowerCase "gift-card-app")).
  { intros H. apply includes_iff in H. discriminate H. }
  split; [exact P|]. split; [exact K|]. split; [exact N|]. split; [exact O|].
  apply (cleanName_of_branch rejecting_engine "feature" "SHOP" "8548"
           "gift-card-app" P K N); [|exact O].
  intros c r H. injection H as <- _. reflexivity.
Defined.

End CleaningExamples.

Section CacheExamples.
Import JiraValidator.

(** Without the settings of the connection a ticket is answered valid and
    skipped, and stored. *)
Example unconfigured_skips :
  validateJiraTicket default_extractor rejecting_engine rejecting_parser unconfigured
    [] shop_8548 gift_card_app 0 1000
  = Resolved
      {| valid := true; message_ := ValidationSkipped; summary := None;
         status := None; assignee := None; timestamp := 1000; skipped := true;
         relevance := None |}
      [(shop_8548,
        {| valid := true; message_ := ValidationSkipped; summary := None;
           status := None; assignee := None; timestamp := 1000; skipped := true;
           relevance := None |})].
Proof. reflexivity. Qed.

(** The address handed to [new URL], with and without a slash at the
    end of [apiUrl]. *)
Example issue_addresses :
  issueURL "https://company.atlassian.net" shop_8548
  = "https://company.atlassian.net/rest/api/2/issue/SHOP-8548" /\
  issueURL "https://company.atlassian.net/" shop_8548
  = "https://company.atlassian.net/rest/api/2/issue/SHOP-8548".
Proof. split; reflexivity. Qed.

(** An address that [new URL] refuses: the promise is rejected and
    nothing is stored. *)
Example refused_address_rejects :
  validateJiraTicket default_extractor rejecting_engine rejecting_parser no_scheme
    [] shop_8548 gift_card_app 0 1000
  = InvalidURL "company.atlassian.net/rest/api/2/issue/SHOP-8548" [].
Proof. reflexivity. Qed.

(** A ticket of a project that is not configured is answered before any
    address is made. *)
Example unknown_project_key :
  validateJiraTicket default_extractor rejecting_engine rejecting_parser no_scheme
    [] "TASK-1" "" 0 1000
  = Resolved (plain false (InvalidProjectKey "TASK" ["SHOP"]) 1000)
      [("TASK-1", plain false (InvalidProjectKey "TASK" ["SHOP"]) 1000)].
Proof. reflexivity. Qed.

(** A valid entry stays valid for a name that the scorer finds not
    relevant. *)
Example cached_valid_for_any_name :
  exists r c,
    validateJiraTicket default_extractor rejecting_engine rejecting_parser configured
      [(shop_8548, gift_cards_entry)] shop_8548 user_authentication 2000 2000
    = Resolved r c /\
    valid r = true /\
    option_map Relevance.relevant (relevance r) = Some false.
Proof. eexists. eexists. split; [vm_compute; reflexivity|]. split; reflexivity. Qed.

Example stats_of_two_entries :
  getCacheStats
    [("SHOP-2", plain false (TicketNotFound "SHOP-2") 3000); (shop_8548, gift_cards_entry)]
  = {| totalEntries := 2; validEntries := 1; invalidEntries := 1;
       skippedEntries := 0;
       oldestEntry := Some {| ticketId_ := shop_8548; date := 1000 |};
       newestEntry := Some {| ticketId_ := "SHOP-2"; date := 3000 |} |}.
Proof. reflexivity. Qed.

Lemma resolved_result_is_cached_witness :
  get [(shop_8548, plain false (ConnectionFailed "ECONNREFUSED") 5000)] shop_8548
  = Some (plain false (ConnectionFailed "ECONNREFUSED") 5000) /\
  forall k, k <> shop_8548 ->
    get [(shop_8548, plain false (ConnectionFailed "ECONNREFUSED") 5000)] k
    = get [(shop_8548, gift_cards_entry)] k.
Proof.
  apply (resolved_result_is_cached default_extractor rejecting_engine rejecting_parser configured
           [(shop_8548, gift_cards_entry)]
           [(shop_8548, plain false (ConnectionFailed "ECONNREFUSED") 5000)]
           shop_8548 gift_card_app 5000 5000).
  right. right. left. exists "ECONNREFUSED". reflexivity.
Defined.

Lemma fresh_entry_answers_witness :
  get [(shop_8548, gift_cards_entry)] shop_8548 = Some gift_cards_entry /\
  (2000 - timestamp gift_cards_entry < cacheTTL configured * 60 * 1000)%Z /\
  match validateJiraTicket default_extractor rejecting_engine rejecting_parser configured
          [(shop_8548, gift_cards_entry)] shop_8548 user_authentication 2000 2000 with
  | Resolved r c' =>
      valid r = valid gift_cards_entry /\ message_ r = message_ gift_cards_entry /\
      summary r = summary gift_cards_entry /\
      timestamp r = timestamp gift_cards_entry /\
      skipped r = skipped gift_cards_entry /\
      (valid gift_cards_entry = false ->
       r = gift_cards_entry /\ c' = [(shop_8548, gift_cards_entry)])
  | Rejected e c' =>
      c' = [(shop_8548, gift_cards_entry)] /\ valid gift_cards_entry = true /\
      Relevance.validateContentRelevance default_extractor rejecting_engine
        user_authentication (summary gift_cards_entry) shop_8548 = Relevance.Thrown e
  | InvalidURL _ _ => False
  | Requesting _ => False
  end.
Proof.
  assert (G : get [(shop_8548, gift_cards_entry)] shop_8548 = Some gift_cards_entry)
    by reflexivity.
  assert (F : (2000 - timestamp gift_cards_entry < cacheTTL configured * 60 * 1000)%Z)
    by reflexivity.
  split; [exact G|]. split; [exact F|].
  exact (fresh_entry_answers default_extractor rejecting_engine rejecting_parser configured
           [(shop_8548, gift_cards_entry)] shop_8548 user_authentication 2000 2000
           gift_cards_entry G F).
Defined.

Lemma mismatch_answers_later_names_witness :
  exists v,
    Relevance.validateContentRelevance default_extractor rejecting_engine
      user_authentication (Some gift_cards_summary) shop_8548 = Relevance.Returned v /\
    Relevance.relevant v = false /\
    let (r, c') := onEnd default_extractor rejecting_engine [] shop_8548
                     user_authentication gift_cards_response 1000 1001 in
    valid r = false /\ relevance r = Some v /\ timestamp r = 1000%Z /\
    forall other now later,
      (now - 1000 < cacheTTL configured * 60 * 1000)%Z ->
      validateJiraTicket default_extractor rejecting_engine rejecting_parser configured c'
        shop_8548 other now later
      = Resolved r c'.
Proof.
  destruct (Relevance.validateContentRelevance default_extractor rejecting_engine
              user_authentication (Some gift_cards_summary) shop_8548)
    as [v|e] eqn:E; [|discriminate E].
  assert (R : Relevance.relevant v = false).
  { revert E. vm_compute. intros E. injection E as <-. reflexivity. }
  exists v. split; [reflexivity|]. split; [exact R|].
  apply (mismatch_answers_later_names default_extractor rejecting_engine rejecting_parser configured
           [] shop_8548 user_authentication gift_cards_response 1000 1001
           {| issue_summary := Some gift_cards_summary; issue_status := "Open";
              issue_assignee := None |} v).
  - discriminate.
  - reflexivity.
  - reflexivity.
  - exact E.
  - exact R.
Defined.

End CacheExamples.
